(** * stm: hierarchical .gitignore resolution (main.py)

    A shallow embedding of the ignore-pattern engine of [main.py]:
    [load_gitignore_patterns], [is_file_ignored] and
    [collect_gitignore_patterns], together with the parts of Python's
    [str], [posixpath] and [fnmatch] they call.  The platform is POSIX
    ([os.sep = "/"]); a character is a code point below 256. *)

From Stdlib Require Import Ascii String List Bool Arith Lia.
From stdpp Require Import base option list gmap strings.

Local Open Scope list_scope.
Local Open Scope bool_scope.

(** ** Python [str] methods used by the program *)

Module Str.

(** [s[:n]] *)
Fixpoint take (n : nat) (s : string) : string :=
  match n, s with
  | S n', String c s' => String c (take n' s')
  | _, _ => ""
  end.

(** [s[n:]] *)
Fixpoint drop (n : nat) (s : string) : string :=
  match n, s with
  | S n', String _ s' => drop n' s'
  | _, _ => s
  end.

(** [s.startswith(p)] *)
Fixpoint startswith (s p : string) {struct p} : bool :=
  match p, s with
  | "", _ => true
  | String a p', String b s' => Ascii.eqb a b && startswith s' p'
  | String _ _, "" => false
  end.

(** [s.endswith(c)] for a one-character suffix *)
Fixpoint endswith (s : string) (c : ascii) : bool :=
  match s with
  | "" => false
  | String a "" => Ascii.eqb a c
  | String _ s' => endswith s' c
  end.

(** [c in s] for a character *)
Fixpoint contains (c : ascii) (s : string) : bool :=
  match s with
  | "" => false
  | String a s' => Ascii.eqb a c || contains c s'
  end.

(** [s.rfind(c)], [None] standing for Python's [-1] *)
Fixpoint rfind (c : ascii) (s : string) : option nat :=
  match s with
  | "" => None
  | String a s' =>
      match rfind c s' with
      | Some i => Some (S i)
      | None => if Ascii.eqb a c then Some 0 else None
      end
  end.

(** [s.rfind(c) + 1] *)
Definition rfind_succ (c : ascii) (s : string) : nat :=
  match rfind c s with Some i => S i | None => 0 end.

(** [s.split(sep)] for a one-character separator *)
Fixpoint split (sep : ascii) (s : string) : list string :=
  match s with
  | "" => [""]
  | String c s' =>
      if Ascii.eqb c sep then "" :: split sep s'
      else match split sep s' with
           | [] => [String c ""]
           | w :: ws => String c w :: ws
           end
  end.

(** [sep.join(l)] *)
Fixpoint join (sep : string) (l : list string) : string :=
  match l with
  | [] => ""
  | x :: l' =>
      match l' with
      | [] => x
      | _ :: _ => x +:+ sep +:+ join sep l'
      end
  end.

(** [s.lstrip(chars)], the stripped set given as a predicate *)
Fixpoint lstrip (p : ascii -> bool) (s : string) : string :=
  match s with
  | "" => ""
  | String a s' => if p a then lstrip p s' else s
  end.

(** [s.rstrip(chars)] *)
Fixpoint rstrip (p : ascii -> bool) (s : string) : string :=
  match s with
  | "" => ""
  | String a s' =>
      match rstrip p s' with
      | "" => if p a then "" else String a ""
      | r => String a r
      end
  end.

(** Characters removed by [s.strip()] without argument: the code points
    below 256 for which [str.isspace] holds. *)
Definition is_whitespace (c : ascii) : bool :=
  let n := nat_of_ascii c in
  ((9 <=? n) && (n <=? 13)) || ((28 <=? n) && (n <=? 32))
  || (n =? 133) || (n =? 160).

(** [s.strip()] *)
Definition strip (s : string) : string :=
  rstrip is_whitespace (lstrip is_whitespace s).

(** [s.replace(a, b)] for one-character [a] and [b] *)
Fixpoint replace (a b : ascii) (s : string) : string :=
  match s with
  | "" => ""
  | String c s' => String (if Ascii.eqb c a then b else c) (replace a b s')
  end.

(** [s == c * len(s)] *)
Fixpoint all_char (c : ascii) (s : string) : bool :=
  match s with
  | "" => true
  | String a s' => Ascii.eqb a c && all_char c s'
  end.

(** [x in l] for a list of strings *)
Definition mem (x : string) (l : list string) : bool :=
  existsb (String.eqb x) l.

(** [l.index(x)] when [x in l] *)
Fixpoint index (x : string) (l : list string) : nat :=
  match l with
  | [] => 0
  | y :: l' => if String.eqb y x then 0 else S (index x l')
  end.

End Str.

(** ** [posixpath] *)

Module posixpath.

Definition sep : ascii := "/"%char.
Definition is_sep (c : ascii) : bool := Ascii.eqb c sep.

Definition basename (p : string) : string :=
  let i := Str.rfind_succ sep p in
  Str.drop i p.

Definition dirname (p : string) : string :=
  let i := Str.rfind_succ sep p in
  let head := Str.take i p in
  if negb (String.eqb head "") && negb (Str.all_char sep head)
  then Str.rstrip is_sep head
  else head.

Definition isabs (p : string) : bool := Str.startswith p "/".

(** [os.path.join(a, b)] *)
Definition join (a b : string) : string :=
  if Str.startswith b "/" then b
  else if String.eqb a "" || Str.endswith a sep then a +:+ b
  else a +:+ "/" +:+ b.

(** One iteration of the component loop of [normpath]. *)
Definition normpath_step (initial_slashes : nat)
    (new_comps : list string) (comp : string) : list string :=
  if String.eqb comp "" || String.eqb comp "." then new_comps
  else if negb (String.eqb comp "..")
          || ((initial_slashes =? 0) && (length new_comps =? 0))
          || (negb (length new_comps =? 0)
              && String.eqb (List.last new_comps "") "..")
  then new_comps ++ [comp]
  else if negb (length new_comps =? 0) then removelast new_comps
  else new_comps.

Definition normpath (path : string) : string :=
  if String.eqb path "" then "."
  else
    let initial_slashes :=
      if Str.startswith path "/" then
        if Str.startswith path "//" && negb (Str.startswith path "///")
        then 2 else 1
      else 0 in
    let comps := Str.split sep path in
    let comps := fold_left (normpath_step initial_slashes) comps [] in
    let path := Str.join "/" comps in
    let path := Str.take initial_slashes "//" +:+ path in
    if String.eqb path "" then "." else path.

(** [os.path.abspath], the working directory given explicitly *)
Definition abspath (cwd path : string) : string :=
  normpath (if isabs path then path else join cwd path).

(** [genericpath.commonprefix] of two component lists *)
Fixpoint commonprefix (l1 l2 : list string) : list string :=
  match l1, l2 with
  | a :: l1', b :: l2' =>
      if String.eqb a b then a :: commonprefix l1' l2' else []
  | _, _ => []
  end.

(** [os.path.relpath(path, start)]; [None] is the [ValueError] raised
    on an empty [path]. *)
Definition relpath (cwd path start : string) : option string :=
  if String.eqb path "" then None
  else
    let start_tail := Str.lstrip is_sep (abspath cwd start) in
    let path_tail := Str.lstrip is_sep (abspath cwd path) in
    let start_list :=
      if String.eqb start_tail "" then [] else Str.split sep start_tail in
    let path_list :=
      if String.eqb path_tail "" then [] else Str.split sep path_tail in
    let i := length (commonprefix start_list path_list) in
    let rel_list :=
      repeat ".." (length start_list - i) ++ List.skipn i path_list in
    Some (if (length rel_list =? 0) then "." else Str.join "/" rel_list).

End posixpath.

(** ** [fnmatch]

    [fnmatch.fnmatch(name, pat)] on POSIX, where [os.path.normcase] is the
    identity: [fnmatch.translate] turns the pattern into a regular
    expression made of [.*] for [*], [.] for [?], a character set for a
    closed [[...]] and the escaped character otherwise, and the whole name
    must match.  [tokens] is that translation, [glob] the match.  As in
    current CPython, a range whose upper end lies below its lower end is
    empty. *)

Module fnmatch.

Inductive token : Type :=
| Star
| Any
| Class (negated : bool) (body : string)
| Lit (c : ascii).

(** The scan for the closing bracket in [translate]: an optional [!],
    then an optional [[]]], then the first [[]]]. *)
Definition class_closes (rest : string) : bool :=
  let r := match rest with
           | String c r' => if Ascii.eqb c "!" then r' else rest
           | "" => rest
           end in
  let r := match r with
           | String c r' => if Ascii.eqb c "]" then r' else r
           | "" => r
           end in
  Str.contains "]" r.

(** [st = Some (negated, body)] while inside a bracket expression. *)
Fixpoint tokens (st : option (bool * string)) (pat : string) : list token :=
  match st, pat with
  | None, "" => []
  | None, String c rest =>
      if Ascii.eqb c "*" then Star :: tokens None rest
      else if Ascii.eqb c "?" then Any :: tokens None rest
      else if Ascii.eqb c "[" && class_closes rest then
        match rest with
        | "" => []
        | String x r =>
            if Ascii.eqb x "!" then
              match r with
              | "" => []
              | String y r' => tokens (Some (true, String y "")) r'
              end
            else tokens (Some (false, String x "")) r
        end
      else Lit c :: tokens None rest
  | Some _, "" => []
  | Some (neg, body), String c rest =>
      if Ascii.eqb c "]" then Class neg body :: tokens None rest
      else tokens (Some (neg, body +:+ String c "")) rest
  end.

(** Membership in a character set: [lo-hi] is a range when a character
    follows the hyphen, every other character stands for itself; a range
    with [hi < lo] is empty. *)
Fixpoint in_class (body : string) (c : ascii) : bool :=
  match body with
  | "" => false
  | String lo rest =>
      match rest with
      | String h (String hi rest') =>
          if Ascii.eqb h "-" then
            ((nat_of_ascii lo <=? nat_of_ascii c)
             && (nat_of_ascii c <=? nat_of_ascii hi))
            || in_class rest' c
          else Ascii.eqb lo c || in_class rest c
      | _ => Ascii.eqb lo c || in_class rest c
      end
  end.

Definition token_accepts (t : token) (c : ascii) : bool :=
  match t with
  | Star | Any => true
  | Class neg body => xorb neg (in_class body c)
  | Lit a => Ascii.eqb a c
  end.

Fixpoint glob (ts : list token) : string -> bool :=
  match ts with
  | [] => fun s => String.eqb s ""
  | Star :: ts' =>
      fix star (s : string) : bool :=
        glob ts' s
        || match s with
           | "" => false
           | String _ s' => star s'
           end
  | t :: ts' =>
      fun s =>
        match s with
        | "" => false
        | String c s' => token_accepts t c && glob ts' s'
        end
  end.

Definition translate (pat : string) : list token := tokens None pat.

Definition fnmatch (name pat : string) : bool := glob (translate pat) name.

End fnmatch.

(** ** Outcomes of a call and the file system *)

Inductive exn : Type :=
| ValueError
| KeyError
| PermissionError
| UnicodeDecodeError.

(** A call returns, raises, or (for the model of a [while True] loop run
    with a step budget) exhausts its budget. *)
Inductive outcome (A : Type) : Type :=
| Ok (a : A)
| Raise (e : exn)
| Diverge.
Arguments Ok {A} a.
Arguments Raise {A} e.
Arguments Diverge {A}.

Global Instance outcome_ret : MRet outcome := fun A a => Ok a.
Global Instance outcome_bind : MBind outcome := fun A B f m =>
  match m with
  | Ok a => f a
  | Raise e => Raise e
  | Diverge => Diverge
  end.

(** What reading a file yields: its lines (each with its line end), or
    the error [open]/decoding raises. *)
Inductive content : Type :=
| Lines (ls : list string)
| Unreadable (e : exn).

(** A tree of directories and regular files, without symbolic links. *)
#[local] Set Warnings "-register-all".
Inductive node : Type :=
| File (c : content)
| Dir (entries : list (string * node)).

Record filesystem : Type := {
  cwd : string;
  tree : node
}.

Module os.

Fixpoint find_entry (name : string) (es : list (string * node))
  : option node :=
  match es with
  | [] => None
  | (n, x) :: es' => if String.eqb n name then Some x else find_entry name es'
  end.

Fixpoint resolve (n : node) (comps : list string) : option node :=
  match comps with
  | [] => Some n
  | c :: cs =>
      match n with
      | Dir es =>
          match find_entry c es with
          | Some n' => resolve n' cs
          | None => None
          end
      | File _ => None
      end
  end.

(** The node a path names; names are resolved on the normalized
    absolute path. *)
Definition lookup (fs : filesystem) (p : string) : option node :=
  if String.eqb p "" then None
  else
    let t := Str.lstrip posixpath.is_sep (posixpath.abspath (cwd fs) p) in
    resolve (tree fs)
            (if String.eqb t "" then [] else Str.split posixpath.sep t).

Definition isdir (fs : filesystem) (p : string) : bool :=
  match lookup fs p with Some (Dir _) => true | _ => false end.

Definition isfile (fs : filesystem) (p : string) : bool :=
  match lookup fs p with Some (File _) => true | _ => false end.

(** The directory paths [os.walk(top)] yields as [root], top-down. *)
Fixpoint walk_node (path : string) (n : node) : list string :=
  match n with
  | File _ => []
  | Dir es =>
      path ::
      (fix subdirs (es : list (string * node)) : list string :=
         match es with
         | [] => []
         | (name, n') :: es' =>
             walk_node (posixpath.join path name) n' ++ subdirs es'
         end) es
  end.

Definition walk (fs : filesystem) (top : string) : list string :=
  match lookup fs top with
  | Some n => walk_node top n
  | None => []
  end.

End os.

(** ** The program *)

Definition ALWAYS_IGNORE_FILENAMES : list string :=
  ["package-lock.json"; "yarn.lock"; "Pipfile.lock"; "poetry.lock";
   ".DS_Store"].

(** [load_gitignore_patterns]: the kept lines of the file, stripped. *)
Definition keep_line (line : string) : option string :=
  let line := Str.strip line in
  if negb (String.eqb line "") && negb (Str.startswith line "#")
  then Some line else None.

Definition load_gitignore_patterns (fs : filesystem) (gitignore_path : string)
  : outcome (list string) :=
  if os.isfile fs gitignore_path then
    match os.lookup fs gitignore_path with
    | Some (File (Lines ls)) => Ok (omap keep_line ls)
    | Some (File (Unreadable e)) => Raise e
    | _ => Ok []
    end
  else Ok [].

(** The dictionary [gitignore_patterns_by_dir]. *)
Abbreviation index := (gmap string (list string)).

(** Calls that hold a reference to the dictionary: they take its current
    value and hand back the value it has afterwards. *)
Definition M (A : Type) : Type := index -> outcome A * index.

Global Instance M_ret : MRet M := fun A a idx => (Ok a, idx).
Global Instance M_bind : MBind M := fun A B f m idx =>
  match m idx with
  | (Ok a, idx') => f a idx'
  | (Raise e, idx') => (Raise e, idx')
  | (Diverge, idx') => (Diverge, idx')
  end.

Definition raise {A} (e : exn) : M A := fun idx => (Raise e, idx).
Definition diverge {A} : M A := fun idx => (Diverge, idx).

(** [k in d] *)
Definition dict_contains (k : string) : M bool :=
  fun idx => (Ok (bool_decide (is_Some (idx !! k))), idx).

(** [d[k]] *)
Definition dict_getitem (k : string) : M (list string) :=
  fun idx =>
    match idx !! k with
    | Some v => (Ok v, idx)
    | None => (Raise KeyError, idx)
    end.

(** [os.path.relpath] inside a call *)
Definition relpath_or_raise (fs : filesystem) (path start : string)
  : M string :=
  match posixpath.relpath (cwd fs) path start with
  | Some r => mret r
  | None => raise ValueError
  end.

(** Lines 87-96: the path lies inside a [.git] directory. *)
Definition in_git_dir (fs : filesystem) (filepath_abs : string) : bool :=
  let path_parts := Str.split posixpath.sep filepath_abs in
  if Str.mem ".git" path_parts then
    let git_index := Str.index ".git" path_parts in
    let git_dir_path := Str.join "/" (List.firstn (git_index + 1) path_parts) in
    os.isdir fs git_dir_path
    && Str.startswith filepath_abs (git_dir_path +:+ "/")
  else false.

(** Lines 156-180: does [pattern] (its [!] already removed) match? *)
Definition pattern_matches (path_relative_to_gitignore_dir pattern : string)
  : bool :=
  let rel := path_relative_to_gitignore_dir in
  if Str.endswith pattern "/" then
    Str.startswith (rel +:+ "/") pattern
  else if negb (Str.contains "/" pattern) then
    fnmatch.fnmatch (posixpath.basename rel) pattern
    || (fnmatch.fnmatch rel (pattern +:+ "/*") || fnmatch.fnmatch rel pattern)
  else fnmatch.fnmatch rel pattern.

Definition is_negation (pattern : string) : bool :=
  Str.startswith pattern "!".

Definition strip_negation (pattern : string) : string :=
  if is_negation pattern then Str.drop 1 pattern else pattern.

(** Lines 143-191: one iteration of the loop over [patterns], on the pair
    of flags [(ignored, negated)]. *)
Definition pattern_step (rel : string) (flags : bool * bool)
    (pattern : string) : bool * bool :=
  let '(ignored, negated) := flags in
  let is_neg := is_negation pattern in
  let pattern := strip_negation pattern in
  let matched := pattern_matches rel pattern in
  if matched then
    if is_neg then (false, true)
    else if negb negated then (true, negated)
    else (ignored, negated)
  else (ignored, negated).

(** Lines 130-135: the [while True] loop, [fuel] bounding its
    iterations. *)
Fixpoint walk_up (fuel : nat) (project_root_abs temp_dir : string)
    (relevant_gitignore_dirs : list string) : M (list string) :=
  match fuel with
  | 0 => diverge
  | S fuel' =>
      present ← dict_contains temp_dir;
      let relevant_gitignore_dirs :=
        if present : bool then relevant_gitignore_dirs ++ [temp_dir]
        else relevant_gitignore_dirs in
      if String.eqb temp_dir project_root_abs
         || String.eqb temp_dir ""
         || String.eqb temp_dir (posixpath.dirname temp_dir)
      then mret relevant_gitignore_dirs
      else walk_up fuel' project_root_abs (posixpath.dirname temp_dir)
                   relevant_gitignore_dirs
  end.

(** Lines 138-191: the loop over [relevant_gitignore_dirs]. *)
Fixpoint apply_dirs (fs : filesystem) (filepath_abs : string)
    (dirs : list string) (flags : bool * bool) : M (bool * bool) :=
  match dirs with
  | [] => mret flags
  | gitignore_dir_abs :: dirs' =>
      patterns ← dict_getitem gitignore_dir_abs;
      rel ← relpath_or_raise fs filepath_abs gitignore_dir_abs;
      let rel := Str.replace posixpath.sep "/" rel in
      apply_dirs fs filepath_abs dirs'
                 (fold_left (pattern_step rel) patterns flags)
  end.

Definition is_file_ignored (fs : filesystem)
    (filepath_abs project_root_abs : string) : M bool :=
  if Str.mem (posixpath.basename filepath_abs) ALWAYS_IGNORE_FILENAMES
  then mret true
  else if in_git_dir fs filepath_abs then mret true
  else
    _ ← relpath_or_raise fs filepath_abs project_root_abs;
    _ ← relpath_or_raise fs filepath_abs project_root_abs;
    let temp_dir := posixpath.dirname filepath_abs in
    relevant_gitignore_dirs ←
      walk_up (S (String.length temp_dir)) project_root_abs temp_dir [];
    '(ignored, negated) ←
      apply_dirs fs filepath_abs relevant_gitignore_dirs (false, false);
    mret (if negb negated then ignored else false).

(** The value a call returns. *)
Definition isIgnored (fs : filesystem) (filepath_abs project_root_abs : string)
    (idx : index) : outcome bool :=
  fst (is_file_ignored fs filepath_abs project_root_abs idx).

(** [collect_gitignore_patterns].  The test of lines 226-230 has an empty
    body ([pass]) and changes nothing, so every directory that [os.walk]
    yields is examined.  [dirs_to_scan] is a set; its elements are taken
    here in the order of their first insertion. *)
Definition scan_dir_of (fs : filesystem) (p_abs : string) : list string :=
  if os.isdir fs p_abs then [p_abs]
  else if os.isfile fs p_abs then [posixpath.dirname p_abs]
  else [].

Definition dirs_to_scan (fs : filesystem) (start_paths_abs : list string)
  : list string :=
  remove_dups (flat_map (scan_dir_of fs) start_paths_abs).

(** Lines 232-235, for one [root] of the walk. *)
Definition visit_root (fs : filesystem) (st : index * gset string)
    (root : string) : outcome (index * gset string) :=
  let '(patterns_by_dir, gitignores_found) := st in
  let gitignore_path := posixpath.join root ".gitignore" in
  if os.isfile fs gitignore_path
     && negb (bool_decide (gitignore_path ∈ gitignores_found))
  then
    patterns ← load_gitignore_patterns fs gitignore_path;
    mret (<[root := patterns]> patterns_by_dir,
          {[gitignore_path]} ∪ gitignores_found)
  else mret st.

Fixpoint foldM {A B : Type} (f : A -> B -> outcome A) (l : list B) (a : A)
  : outcome A :=
  match l with
  | [] => Ok a
  | b :: l' => a' ← f a b; foldM f l' a'
  end.

Definition collect_gitignore_patterns (fs : filesystem)
    (start_paths_abs : list string) (project_root_abs : string)
  : outcome index :=
  let root_gitignore_path := posixpath.join project_root_abs ".gitignore" in
  patterns_by_dir ←
    (if os.isfile fs root_gitignore_path then
       patterns ← load_gitignore_patterns fs root_gitignore_path;
       mret ({[project_root_abs := patterns]} : index)
     else mret (∅ : index));
  let gitignores_found : gset string :=
    if os.isfile fs root_gitignore_path then {[root_gitignore_path]} else ∅ in
  st ← foldM (fun st current_search_dir =>
                foldM (visit_root fs) (os.walk fs current_search_dir) st)
             (dirs_to_scan fs start_paths_abs)
             (patterns_by_dir, gitignores_found);
  mret (fst st).

(** ** The other helpers of [main.py] *)

(** [c.lower()] on code points below 256: the ASCII capitals and the
    Latin-1 capitals (all of 192-222 but the multiplication sign 215). *)
Definition char_lower (c : ascii) : ascii :=
  let n := nat_of_ascii c in
  if ((65 <=? n) && (n <=? 90))
     || ((192 <=? n) && (n <=? 222) && negb (n =? 215))
  then ascii_of_nat (n + 32) else c.

(** [s.lower()] *)
Fixpoint lower (s : string) : string :=
  match s with
  | "" => ""
  | String c s' => String (char_lower c) (lower s')
  end.

(** [os.path.splitext] ([genericpath._splitext] with [sep = "/"], no
    [altsep], [extsep = "."]): the extension starts at the last dot when
    that dot lies after the last separator and some character between the
    separator and the dot is not a dot. *)
Definition splitext (p : string) : string * string :=
  let filenameIndex := Str.rfind_succ posixpath.sep p in
  let dotSucc := Str.rfind_succ "." p in
  if filenameIndex <? dotSucc then
    let dotIndex := dotSucc - 1 in
    let leading :=
      Str.take (dotIndex - filenameIndex) (Str.drop filenameIndex p) in
    if negb (Str.all_char "." leading)
    then (Str.take dotIndex p, Str.drop dotIndex p)
    else (p, "")
  else (p, "").

Definition BINARY_EXTENSIONS : list string :=
  [".png"; ".jpg"; ".jpeg"; ".gif"; ".bmp"; ".tiff"; ".ico";
   ".zip"; ".tar"; ".gz"; ".rar"; ".7z"; ".whl";
   ".exe"; ".dll"; ".so"; ".dylib"; ".o"; ".a"; ".pyc"; ".pyo"; ".class";
   ".jar";
   ".pdf"; ".doc"; ".docx"; ".xls"; ".xlsx"; ".ppt"; ".pptx";
   ".mp3"; ".wav"; ".ogg"; ".mp4"; ".mkv"; ".avi"; ".mov";
   ".db"; ".sqlite"; ".sqlite3";
   ".ttf"; ".otf"; ".woff"; ".woff2";
   ".lock"].

Definition lang_map : list (string * string) :=
  [(".py", "python"); (".js", "javascript"); (".ts", "typescript");
   (".java", "java"); (".c", "c"); (".cpp", "cpp"); (".h", "c");
   (".hpp", "cpp");
   (".cs", "csharp"); (".go", "go"); (".rb", "ruby"); (".php", "php");
   (".rs", "rust"); (".kt", "kotlin"); (".swift", "swift");
   (".md", "markdown"); (".json", "json"); (".yaml", "yaml");
   (".yml", "yaml");
   (".html", "html"); (".htm", "html"); (".css", "css");
   (".sh", "bash"); (".bash", "bash"); (".zsh", "zsh");
   (".sql", "sql"); (".r", "r"); (".pl", "perl"); (".lua", "lua");
   (".scala", "scala"); (".hs", "haskell"); (".clj", "clojure");
   (".f90", "fortran"); (".f95", "fortran");
   (".txt", "text")].

(** [d.get(k, "")] on a dictionary literal *)
Fixpoint dict_get (k : string) (d : list (string * string)) : string :=
  match d with
  | [] => ""
  | (k', v) :: d' => if String.eqb k' k then v else dict_get k d'
  end.

Definition get_language_from_extension (filepath : string) : string :=
  let ext := snd (splitext filepath) in
  let ext := lower ext in
  dict_get ext lang_map.

(** Line 348 of [main]: the file is skipped as binary. *)
Definition has_binary_extension (filepath_abs : string) : bool :=
  Str.mem (lower (snd (splitext filepath_abs))) BINARY_EXTENSIONS.

(** ** The walk of [is_file_ignored], described as data *)

(** Step 1 of the resolver (lines 82-96): the fixed deny list. *)
Definition denylisted (fs : filesystem) (filepath_abs : string) : bool :=
  Str.mem (posixpath.basename filepath_abs) ALWAYS_IGNORE_FILENAMES
  || in_git_dir fs filepath_abs.

(** The directories the [while True] loop visits, starting at [temp_dir]. *)
Fixpoint ancestors (fuel : nat) (project_root_abs temp_dir : string)
  : list string :=
  match fuel with
  | 0 => []
  | S fuel' =>
      temp_dir ::
      (if String.eqb temp_dir project_root_abs
          || String.eqb temp_dir ""
          || String.eqb temp_dir (posixpath.dirname temp_dir)
       then []
       else ancestors fuel' project_root_abs (posixpath.dirname temp_dir))
  end.

(** The chain from the parent directory of the path up to the root. *)
Definition chain (project_root_abs filepath_abs : string) : list string :=
  let temp_dir := posixpath.dirname filepath_abs in
  ancestors (S (String.length temp_dir)) project_root_abs temp_dir.

(** The directories of the chain that have a rule file, deepest first. *)
Definition applicable_dirs (project_root_abs filepath_abs : string)
    (idx : index) : list string :=
  filter (fun d => is_Some (idx !! d)) (chain project_root_abs filepath_abs).

(** The rules of the walk, each with the directory of its rule file, in
    the order the two nested loops meet them. *)
Definition walk_rules (project_root_abs filepath_abs : string) (idx : index)
  : list (string * string) :=
  flat_map (fun d => map (pair d) (default [] (idx !! d)))
           (applicable_dirs project_root_abs filepath_abs idx).

(** The rule [(d, pattern)] matches the path. *)
Definition rule_hits (fs : filesystem) (filepath_abs : string)
    (r : string * string) : bool :=
  match posixpath.relpath (cwd fs) filepath_abs (fst r) with
  | Some rel =>
      pattern_matches (Str.replace posixpath.sep "/" rel)
                      (strip_negation (snd r))
  | None => false
  end.

Definition hits_negated (fs : filesystem) (filepath_abs : string)
    (r : string * string) : bool :=
  rule_hits fs filepath_abs r && is_negation (snd r).

Definition hits_plain (fs : filesystem) (filepath_abs : string)
    (r : string * string) : bool :=
  rule_hits fs filepath_abs r && negb (is_negation (snd r)).

(** One iteration of the inner loop, for the rule [(d, pattern)]. *)
Definition rule_step (fs : filesystem) (filepath_abs : string)
    (flags : bool * bool) (r : string * string) : bool * bool :=
  match posixpath.relpath (cwd fs) filepath_abs (fst r) with
  | Some rel => pattern_step (Str.replace posixpath.sep "/" rel) flags (snd r)
  | None => flags
  end.

(** The value line 195 returns. *)
Definition final_verdict (flags : bool * bool) : bool :=
  if negb (snd flags) then fst flags else false.

(** The resolver as the specification words it (section 4.4, steps 3-5):
    start from [false]; every matching rule of the walk overwrites the
    verdict with the negation of its negation flag. *)
Definition last_match_verdict (fs : filesystem)
    (filepath_abs project_root_abs : string) (idx : index) : bool :=
  fold_left
    (fun ignored r =>
       if rule_hits fs filepath_abs r then negb (is_negation (snd r))
       else ignored)
    (walk_rules project_root_abs filepath_abs idx) false.

(** [pattern] is a line of the rule file stored under [d]. *)
Definition has_rule (idx : index) (d pattern : string) : Prop :=
  exists patterns, idx !! d = Some patterns /\ pattern ∈ patterns.

(** Every entry of the dictionary holds the loaded rule file of its key. *)
Definition loaded_from (fs : filesystem) (pbd : index) : Prop :=
  forall d pats, pbd !! d = Some pats ->
    os.isfile fs (posixpath.join d ".gitignore") = true
    /\ load_gitignore_patterns fs (posixpath.join d ".gitignore") = Ok pats.

(** Every rule file met so far is stored under a key it belongs to. *)
Definition found_are_keys (st : index * gset string) : Prop :=
  forall g, g ∈ snd st ->
    exists d, is_Some (fst st !! d) /\ posixpath.join d ".gitignore" = g.

(** The dictionary and the set of met rule files only grow. *)
Definition grows (st st' : index * gset string) : Prop :=
  (forall d, is_Some (fst st !! d) -> is_Some (fst st' !! d))
  /\ (forall g, g ∈ snd st -> g ∈ snd st').

(** No file of the tree is unreadable. *)
Fixpoint readable_node (n : node) : Prop :=
  match n with
  | File (Lines _) => True
  | File (Unreadable _) => False
  | Dir es =>
      (fix readable_entries (es : list (string * node)) : Prop :=
         match es with
         | [] => True
         | (_, n') :: es' => readable_node n' /\ readable_entries es'
         end) es
  end.

(** A pattern without the special characters of [fnmatch]. *)
Fixpoint literal (s : string) : bool :=
  match s with
  | "" => true
  | String c s' =>
      negb (Ascii.eqb c "*") && negb (Ascii.eqb c "?")
      && negb (Ascii.eqb c "[") && literal s'
  end.

(** ** Paths given by their components *)

(** A directory entry name: not empty, no separator, neither [.] nor
    [..]. *)
Definition good_name (c : string) : Prop :=
  c <> "" /\ Str.contains posixpath.sep c = false /\ c <> "." /\ c <> "..".

(** The absolute path with components [cs]. *)
Definition abs_path (cs : list string) : string :=
  "/" +:+ Str.join "/" cs.

(** [d] is [root] or lies below it. *)
Definition at_or_under (root d : string) : Prop :=
  d = root \/ Str.startswith d (posixpath.join root "") = true.

Fixpoint wf_node (n : node) : Prop :=
  match n with
  | File _ => True
  | Dir es =>
      (fix wf_entries (es : list (string * node)) : Prop :=
         match es with
         | [] => True
         | (name, n') :: es' => good_name name /\ wf_node n' /\ wf_entries es'
         end) es
  end.

(** ** Sample file systems *)

Definition nl : string := String "010"%char "".

(** A project with a rule file at its root and one in [sub], next to a
    directory outside the project that has a rule file too. *)
Definition sample_fs : filesystem :=
  {| cwd := "/proj";
     tree :=
       Dir [("proj",
             Dir [(".gitignore",
                   File (Lines ["*.log" +:+ nl; "# c" +:+ nl; nl;
                                "  !keep.log  " +:+ nl]));
                  ("sub", Dir [(".gitignore", File (Lines ["x/"]))]);
                  ("keep.log", File (Lines []))]);
            ("other", Dir [(".gitignore", File (Lines ["y"]))])] |}.

(** A project whose rule file cannot be opened. *)
Definition locked_fs : filesystem :=
  {| cwd := "/proj";
     tree := Dir [("proj",
                   Dir [(".gitignore", File (Unreadable PermissionError));
                        ("a.txt", File (Lines ["x"]))])] |}.

(** A project with a [.git] directory. *)
Definition git_fs : filesystem :=
  {| cwd := "/proj";
     tree :=
       Dir [("proj",
             Dir [(".git", Dir [("config", File (Lines ["x"]))]);
                  ("a.txt", File (Lines ["x"]))])] |}.

(** ** Sample runs *)

Example split_ex : Str.split "/" "/a/b" = [""; "a"; "b"].
Proof. reflexivity. Qed.

Example relpath_ex :
  map (fun p => posixpath.relpath "/cwd" p "/a/b")
      ["/a/b/c/d.txt"; "/a/b"; "/a/x"; "/"; ""; "rel"]
  = [Some "c/d.txt"; Some "."; Some "../x"; Some "../.."; None;
     Some "../../cwd/rel"].
Proof. reflexivity. Qed.

Example fnmatch_ex :
  map (fun '(n, p) => fnmatch.fnmatch n p)
      [("keep.log", "*.log"); ("a/b.log", "*.log"); ("x.txt", "*.log");
       ("abc", "a?c"); ("abc", "a[a-c]c"); ("adc", "a[!a-c]c");
       ("a[c", "a[c"); ("a]c", "a[]]c"); ("a-c", "a[x-]c");
       ("foo/bar", "foo/*"); ("foo", "foo/*"); ("", "*"); ("ab", "a")]
  = [true; true; false; true; true; true; true; true; true;
     true; false; true; false].
Proof. reflexivity. Qed.

Example collect_ex :
  collect_gitignore_patterns sample_fs ["/proj"] "/proj"
  = Ok (<["/proj/sub" := ["x/"]]> {["/proj" := ["*.log"; "!keep.log"]]}).
Proof. vm_compute. reflexivity. Qed.

Example is_ignored_ex :
  map (fun p => isIgnored sample_fs p "/proj"
                          {["/proj" := ["*.log"; "!keep.log"]]})
      ["/proj/keep.log"; "/proj/other.log"; "/proj/a/b/x.log";
       "/proj/yarn.lock"; ""]
  = [Ok false; Ok true; Ok true; Ok true; Raise ValueError].
Proof. vm_compute. reflexivity. Qed.

Example dirname_ex :
  map posixpath.dirname ["/a/b/c.txt"; "/a"; "/"; "a"; "//"; "/a//b"; ""]
  = ["/a/b"; "/"; "/"; ""; "//"; "/a"; ""].
Proof. reflexivity. Qed.

Example normpath_ex :
  map posixpath.normpath ["/a/./b/../c/"; "//a"; "///a"; "a/../.."; ""]
  = ["/a/c"; "//a"; "/a"; ".."; "."].
Proof. reflexivity. Qed.

Example splitext_ex :
  map splitext ["/a/b.tar.gz"; "/a.b/c"; "/a/.bashrc"; "/a/..x.py"; "x."; ""]
  = [("/a/b.tar", ".gz"); ("/a.b/c", ""); ("/a/.bashrc", "");
     ("/a/..x", ".py"); ("x", "."); ("", "")].
Proof. reflexivity. Qed.

Example get_language_ex :
  map get_language_from_extension ["/p/a.PY"; "/p/a.txt"; "/p/a.bin"; "/p/.py"]
  = ["python"; "text"; ""; ""].
Proof. reflexivity. Qed.

(** ** Strings: basic facts *)

Lemma sapp_nil_l (s : string) : "" +:+ s = s.
Proof. reflexivity. Qed.

Lemma sapp_cons (c : ascii) (s t : string) :
  String c s +:+ t = String c (s +:+ t).
Proof. reflexivity. Qed.

Lemma sapp_nil_r (s : string) : s +:+ "" = s.
Proof. induction s as [|c s IH]; [done|]. by rewrite sapp_cons, IH. Qed.

Lemma sapp_assoc (s t u : string) : (s +:+ t) +:+ u = s +:+ (t +:+ u).
Proof. induction s as [|c s IH]; [done|]. by rewrite !sapp_cons, IH. Qed.

Lemma sapp_length (s t : string) :
  String.length (s +:+ t) = String.length s + String.length t.
Proof. induction s as [|c s IH]; [done|]. rewrite sapp_cons. simpl. lia. Qed.

Lemma take_prefix (n : nat) (s : string) : exists t, s = Str.take n s +:+ t.
Proof.
  revert s. induction n as [|n IH]; intros s.
  - exists s. by destruct s.
  - destruct s as [|c s]; [by exists ""|].
    destruct (IH s) as [t Ht]. exists t. simpl. rewrite sapp_cons. congruence.
Qed.

Lemma rstrip_prefix (p : ascii -> bool) (s : string) :
  exists t, s = Str.rstrip p s +:+ t.
Proof.
  induction s as [|c s [t Ht]]; [by exists ""|].
  simpl. destruct (Str.rstrip p s) as [|a r] eqn:E.
  - destruct (p c).
    + by exists (String c s).
    + exists s. by rewrite sapp_cons.
  - exists t. rewrite sapp_cons. congruence.
Qed.

Lemma dirname_prefix (p : string) : exists t, p = posixpath.dirname p +:+ t.
Proof.
  unfold posixpath.dirname.
  destruct (take_prefix (Str.rfind_succ posixpath.sep p) p) as [t Ht].
  set (head := Str.take (Str.rfind_succ posixpath.sep p) p) in *.
  destruct (negb (String.eqb head "")
            && negb (Str.all_char posixpath.sep head)).
  - destruct (rstrip_prefix posixpath.is_sep head) as [u Hu].
    exists (u +:+ t). rewrite <- sapp_assoc, <- Hu. exact Ht.
  - by exists t.
Qed.

(** Each step of the upward loop shortens the directory or stops. *)
Lemma dirname_shorter (p : string) :
  posixpath.dirname p <> p ->
  String.length (posixpath.dirname p) < String.length p.
Proof.
  intros Hne. destruct (dirname_prefix p) as [t Ht].
  destruct t as [|c t].
  - rewrite sapp_nil_r in Ht. congruence.
  - apply (f_equal String.length) in Ht. rewrite sapp_length in Ht.
    simpl in Ht. lia.
Qed.

(** ** The calls only read the dictionary *)

Lemma bind_run {A B} (m : M A) (f : A -> M B) (idx : index) (a : A) :
  m idx = (Ok a, idx) -> (m ≫= f) idx = f a idx.
Proof. intros H. unfold mbind, M_bind. by rewrite H. Qed.

Lemma relpath_or_raise_run fs path start idx :
  path <> "" ->
  exists rel, posixpath.relpath (cwd fs) path start = Some rel
    /\ relpath_or_raise fs path start idx = (Ok rel, idx).
Proof.
  intros Hne. unfold relpath_or_raise, posixpath.relpath.
  destruct (String.eqb_spec path ""); [done|].
  eexists. split; reflexivity.
Qed.

Lemma relpath_empty cwd start : posixpath.relpath cwd "" start = None.
Proof. reflexivity. Qed.

(** The upward loop ends within its budget and returns the directories of
    the chain that are keys of the dictionary. *)
Lemma walk_up_run fuel root d acc (idx : index) :
  String.length d < fuel ->
  walk_up fuel root d acc idx
  = (Ok (acc ++ filter (fun d => is_Some (idx !! d)) (ancestors fuel root d)),
     idx).
Proof.
  revert d acc. induction fuel as [|fuel IH]; intros d acc Hlen; [lia|].
  cbn [walk_up ancestors]. unfold mbind, M_bind, dict_contains.
  rewrite filter_cons.
  destruct (String.eqb d root || String.eqb d ""
            || String.eqb d (posixpath.dirname d)) eqn:Hstop.
  - rewrite filter_nil. case_bool_decide; destruct (decide _); try done.
    by rewrite List.app_nil_r.
  - apply orb_false_elim in Hstop as [_ Hfix].
    apply String.eqb_neq in Hfix.
    assert (String.length (posixpath.dirname d) < fuel) as Hlt.
    { pose proof (dirname_shorter d (not_eq_sym Hfix)). lia. }
    rewrite IH by exact Hlt.
    case_bool_decide; destruct (decide _); try done.
    by rewrite <- List.app_assoc.
Qed.

Lemma fold_rules_of_dir fs path d rel pats flags :
  posixpath.relpath (cwd fs) path d = Some rel ->
  fold_left (rule_step fs path) (map (pair d) pats) flags
  = fold_left (pattern_step (Str.replace posixpath.sep "/" rel)) pats flags.
Proof.
  intros Hrel. revert flags.
  induction pats as [|pat pats IH]; intros flags; [done|].
  cbn [map fold_left]. rewrite IH. f_equal.
  unfold rule_step. cbn [fst snd]. by rewrite Hrel.
Qed.

(** The loop over the retained directories neither raises nor changes the
    dictionary, and folds [rule_step] over the rules of the walk. *)
Lemma apply_dirs_run fs path dirs flags (idx : index) :
  path <> "" ->
  Forall (fun d => is_Some (idx !! d)) dirs ->
  apply_dirs fs path dirs flags idx
  = (Ok (fold_left (rule_step fs path)
                   (flat_map (fun d => map (pair d) (default [] (idx !! d)))
                             dirs) flags),
     idx).
Proof.
  intros Hne Hdirs. revert flags.
  induction Hdirs as [|d dirs [pats Hd] _ IH]; intros flags; [done|].
  cbn [apply_dirs flat_map].
  destruct (relpath_or_raise_run fs path d idx Hne) as (rel & Hrel & Hrun).
  unfold mbind at 1, M_bind at 1, dict_getitem. rewrite Hd.
  rewrite (bind_run _ _ _ _ Hrun).
  rewrite IH, fold_left_app. cbn [default].
  by rewrite (fold_rules_of_dir _ _ _ _ _ _ Hrel).
Qed.

(** The two flags after the walk: a negation that matched is never undone,
    and the path is ignored only if a plain rule matched as well. *)
Lemma final_verdict_fold fs path rules (ignored negated : bool) :
  final_verdict (fold_left (rule_step fs path) rules (ignored, negated))
  = negb (negated || existsb (hits_negated fs path) rules)
    && (ignored || existsb (hits_plain fs path) rules).
Proof.
  revert ignored negated.
  induction rules as [|r rules IH]; intros ignored negated.
  - unfold final_verdict. cbn. by destruct ignored, negated.
  - cbn [fold_left existsb].
    unfold rule_step at 2, hits_negated at 1, hits_plain at 1, rule_hits.
    destruct (posixpath.relpath (cwd fs) path r.1) as [rel|].
    + unfold pattern_step.
      destruct (pattern_matches _ _), (is_negation r.2), negated, ignored;
        cbn; rewrite IH; cbn; try done;
        by destruct (existsb (hits_negated fs path) rules).
    + cbn. apply IH.
Qed.

(** What a call to [is_file_ignored] does: it returns within its budget,
    leaves the dictionary as it found it, and its value is [true] for a
    deny-listed path, a [ValueError] for the empty path, and otherwise
    [true] exactly when a plain rule of the walk matches and no negation
    rule of the walk does. *)
Lemma is_file_ignored_run fs path root (idx : index) :
  is_file_ignored fs path root idx
  = (if denylisted fs path then Ok true
     else if String.eqb path "" then Raise ValueError
     else Ok (negb (existsb (hits_negated fs path) (walk_rules root path idx))
              && existsb (hits_plain fs path) (walk_rules root path idx)),
     idx).
Proof.
  unfold is_file_ignored, denylisted.
  destruct (Str.mem _ ALWAYS_IGNORE_FILENAMES); [done|].
  destruct (in_git_dir fs path); [done|]. cbn [orb].
  destruct (String.eqb_spec path "") as [->|Hne]; [done|].
  destruct (relpath_or_raise_run fs path root idx Hne) as (rel & _ & Hrun).
  rewrite !(bind_run _ _ _ _ Hrun).
  erewrite bind_run; [|apply walk_up_run; lia].
  cbn [app].
  erewrite bind_run; [|apply apply_dirs_run; [done|]].
  - fold (chain root path). fold (applicable_dirs root path idx).
    fold (walk_rules root path idx).
    pose proof (final_verdict_fold fs path (walk_rules root path idx)
                  false false) as Hv.
    destruct (fold_left _ _ _) as [ignored negated].
    unfold final_verdict in Hv. cbn [fst snd orb] in Hv.
    cbv [mret M_ret]. by rewrite Hv.
  - apply Forall_forall. intros d Hd.
    by apply list_elem_of_filter in Hd as [? _].
Qed.

Lemma isIgnored_run fs path root (idx : index) :
  isIgnored fs path root idx
  = if denylisted fs path then Ok true
    else if String.eqb path "" then Raise ValueError
    else Ok (negb (existsb (hits_negated fs path) (walk_rules root path idx))
             && existsb (hits_plain fs path) (walk_rules root path idx)).
Proof. unfold isIgnored. by rewrite is_file_ignored_run. Qed.

(** The rules of the walk are the patterns stored under the directories
    of the chain. *)
Lemma elem_of_walk_rules root path (idx : index) d pat :
  (d, pat) ∈ walk_rules root path idx
  <-> d ∈ chain root path
      /\ exists pats, idx !! d = Some pats /\ pat ∈ pats.
Proof.
  unfold walk_rules, applicable_dirs.
  rewrite list_elem_of_In, in_flat_map. split.
  - intros (d' & Hd' & Hin).
    apply list_elem_of_In, list_elem_of_filter in Hd' as [[pats Hp] Hc].
    rewrite Hp in Hin. cbn in Hin.
    apply in_map_iff in Hin as (pat' & [= <- <-] & Hpat).
    split; [done|]. exists pats. split; [done|]. by apply list_elem_of_In.
  - intros (Hc & pats & Hp & Hpat). exists d. split.
    + apply list_elem_of_In, list_elem_of_filter. by rewrite Hp.
    + rewrite Hp. cbn. apply in_map. by apply list_elem_of_In.
Qed.

Lemma existsb_false_iff {A} (f : A -> bool) (l : list A) :
  existsb f l = false <-> forall x, x ∈ l -> f x = false.
Proof.
  split.
  - intros H x Hx. destruct (f x) eqn:E; [|done].
    assert (existsb f l = true) as Ht; [|congruence].
    apply existsb_exists. exists x. split; [by apply list_elem_of_In|done].
  - intros H. destruct (existsb f l) eqn:E; [|done].
    apply existsb_exists in E as (x & Hx & Hfx).
    apply list_elem_of_In in Hx. rewrite (H x Hx) in Hfx. done.
Qed.

(** ** The resolver: precedence *)

(** C1, as the specification states it, fails: with the root rules
    [!keep.log] then [*.log], the last rule that matches [keep.log] is the
    plain [*.log], yet the call returns [false]. *)
Lemma last_match_wins_refuted :
  ~ (forall fs path root (idx : index),
       isIgnored fs path root idx
       = Ok (last_match_verdict fs path root idx)).
Proof.
  intros H.
  specialize (H sample_fs "/proj/keep.log" "/proj"
                ({["/proj" := ["!keep.log"; "*.log"]]} : index)).
  vm_compute in H. discriminate H.
Qed.

(** C1 (amended): for a non-empty path, [is_file_ignored] returns [true]
    exactly when the path is on the deny list, or some plain rule of the
    walk matches it and no negation rule of the walk matches it; the order
    of the matching rules plays no part. *)
Theorem is_file_ignored_verdict fs path root (idx : index) :
  path <> "" ->
  isIgnored fs path root idx
  = Ok (denylisted fs path
        || (existsb (hits_plain fs path) (walk_rules root path idx)
            && negb (existsb (hits_negated fs path)
                             (walk_rules root path idx)))).
Proof.
  intros Hne. rewrite isIgnored_run.
  destruct (denylisted fs path); [done|].
  destruct (String.eqb_spec path ""); [done|].
  cbn [orb]. by rewrite andb_comm.
Qed.

Lemma is_file_ignored_verdict_witness :
  isIgnored sample_fs "/proj/keep.log" "/proj"
            ({["/proj" := ["!keep.log"; "*.log"]]} : index)
  = Ok false.
Proof.
  rewrite (is_file_ignored_verdict sample_fs "/proj/keep.log" "/proj"
             ({["/proj" := ["!keep.log"; "*.log"]]} : index)).
  - vm_compute. reflexivity.
  - discriminate.
Defined.

(** C4, as stated, fails on the deny list and on the empty path: no rule
    matches [yarn.lock] under an empty dictionary and the call returns
    [true]; no rule matches the empty path and the call raises. *)
Lemma no_match_not_ignored_refuted :
  ~ ((forall r, r ∈ walk_rules "/proj" "/proj/yarn.lock" (∅ : index) ->
                rule_hits sample_fs "/proj/yarn.lock" r = false) ->
     isIgnored sample_fs "/proj/yarn.lock" "/proj" (∅ : index) = Ok false)
  /\ ~ ((forall r, r ∈ walk_rules "/proj" "" (∅ : index) ->
                   rule_hits sample_fs "" r = false) ->
        isIgnored sample_fs "" "/proj" (∅ : index) = Ok false).
Proof.
  split; intros H.
  - assert (isIgnored sample_fs "/proj/yarn.lock" "/proj" (∅ : index)
            = Ok false) as E.
    { apply H. intros r Hr. vm_compute in Hr. by apply elem_of_nil in Hr. }
    vm_compute in E. discriminate E.
  - assert (isIgnored sample_fs "" "/proj" (∅ : index) = Ok false) as E.
    { apply H. intros r Hr. vm_compute in Hr. by apply elem_of_nil in Hr. }
    vm_compute in E. discriminate E.
Qed.

(** C4 (amended): for every non-empty path that the deny list does not
    catch, if no rule of the walk matches the path then [is_file_ignored]
    returns [false]. *)
Theorem no_match_not_ignored fs path root (idx : index) :
  path <> "" ->
  denylisted fs path = false ->
  (forall r, r ∈ walk_rules root path idx -> rule_hits fs path r = false) ->
  isIgnored fs path root idx = Ok false.
Proof.
  intros Hne Hdeny Hnone. rewrite isIgnored_run, Hdeny.
  destruct (String.eqb_spec path ""); [done|].
  assert (existsb (hits_plain fs path) (walk_rules root path idx) = false)
    as ->; [|by rewrite andb_false_r].
  apply existsb_false_iff. intros r Hr. unfold hits_plain.
  by rewrite (Hnone r Hr).
Qed.

Lemma no_match_not_ignored_witness :
  isIgnored sample_fs "/proj/notes.txt" "/proj"
            ({["/proj" := ["*.log"; "!keep.log"]]} : index)
  = Ok false.
Proof.
  apply (no_match_not_ignored sample_fs "/proj/notes.txt" "/proj"
           ({["/proj" := ["*.log"; "!keep.log"]]} : index)).
  - discriminate.
  - vm_compute. reflexivity.
  - intros r Hr. vm_compute in Hr.
    apply elem_of_cons in Hr as [->|Hr]; [vm_compute; reflexivity|].
    apply elem_of_cons in Hr as [->|Hr]; [vm_compute; reflexivity|].
    by apply elem_of_nil in Hr.
Defined.

(** C9: a second call on the dictionary the first call leaves behind
    returns the same outcome, that outcome is not an exhausted budget, and
    after either call the dictionary (its keys and every pattern list) is
    the one given. *)
Theorem is_file_ignored_idempotent fs path root (idx : index) :
  let first := is_file_ignored fs path root idx in
  let second := is_file_ignored fs path root (snd first) in
  fst second = fst first
  /\ fst first <> Diverge
  /\ snd first = idx
  /\ snd second = idx.
Proof.
  cbn zeta. rewrite !is_file_ignored_run. cbn [fst snd].
  split; [done|]. split; [|done].
  destruct (denylisted fs path); [done|].
  by destruct (String.eqb path "").
Qed.

(** C10: if the deny list does not catch the path and a negation rule
    stored under a directory of the chain matches it, the call returns
    [false], whatever plain rules match before or after it. *)
Theorem negation_is_sticky fs path root (idx : index) d pats pat :
  denylisted fs path = false ->
  d ∈ chain root path ->
  idx !! d = Some pats ->
  pat ∈ pats ->
  is_negation pat = true ->
  rule_hits fs path (d, pat) = true ->
  isIgnored fs path root idx = Ok false.
Proof.
  intros Hdeny Hd Hpats Hpat Hneg Hhit.
  rewrite isIgnored_run, Hdeny.
  destruct (String.eqb_spec path "") as [->|Hne].
  { unfold rule_hits in Hhit. by rewrite relpath_empty in Hhit. }
  assert (existsb (hits_negated fs path) (walk_rules root path idx) = true)
    as ->; [|done].
  apply existsb_exists. exists (d, pat). split.
  - apply list_elem_of_In, elem_of_walk_rules. eauto.
  - unfold hits_negated. cbn [snd]. by rewrite Hhit, Hneg.
Qed.

Lemma negation_is_sticky_witness :
  isIgnored sample_fs "/proj/sub/keep.log" "/proj"
    (<["/proj/sub" := ["*.log"]]> {["/proj" := ["!keep.log"; "*.log"]]}
     : index)
  = Ok false.
Proof.
  apply (negation_is_sticky sample_fs "/proj/sub/keep.log" "/proj"
           (<["/proj/sub" := ["*.log"]]> {["/proj" := ["!keep.log"; "*.log"]]})
           "/proj" ["!keep.log"; "*.log"] "!keep.log").
  - vm_compute. reflexivity.
  - vm_compute. apply list_elem_of_further, list_elem_of_here.
  - vm_compute. reflexivity.
  - apply list_elem_of_here.
  - vm_compute. reflexivity.
  - vm_compute. reflexivity.
Defined.

(** ** The loader and the index builder *)

(** C6: a rule file that exists and cannot be opened makes the loader
    raise, and the error leaves [collect_gitignore_patterns] with it: no
    empty rule list is produced. *)
Theorem unreadable_rule_file_raises :
  os.isfile locked_fs "/proj/.gitignore" = true
  /\ load_gitignore_patterns locked_fs "/proj/.gitignore"
     = Raise PermissionError
  /\ collect_gitignore_patterns locked_fs ["/proj"] "/proj"
     = Raise PermissionError.
Proof. repeat split; vm_compute; reflexivity. Qed.

Lemma startswith_iff (s p : string) :
  Str.startswith s p = true <-> exists t, s = p +:+ t.
Proof.
  revert s. induction p as [|a p IH]; intros s.
  - split; [intros _; by exists s|done].
  - destruct s as [|b s]; cbn.
    + split; [done|]. intros [t Ht]. by rewrite sapp_cons in Ht.
    + rewrite andb_true_iff, IH. split.
      * intros [Hab [t ->]]. apply Ascii.eqb_eq in Hab as ->.
        by exists t.
      * intros [t Ht]. rewrite sapp_cons in Ht. injection Ht as -> ->.
        split; [apply Ascii.eqb_refl|by exists t].
Qed.

Lemma startswith_app (s t : string) : Str.startswith (s +:+ t) s = true.
Proof. apply startswith_iff. by exists t. Qed.

Lemma startswith_trans (s p q : string) :
  Str.startswith s p = true -> Str.startswith p q = true ->
  Str.startswith s q = true.
Proof.
  rewrite !startswith_iff. intros [t ->] [u ->].
  exists (u +:+ t). by rewrite sapp_assoc.
Qed.

Lemma join_empty_prefix (a : string) :
  Str.startswith (posixpath.join a "") a = true.
Proof.
  unfold posixpath.join. cbn [Str.startswith].
  destruct (String.eqb a "" || Str.endswith a posixpath.sep);
    apply startswith_app.
Qed.

Lemma join_under (a name : string) :
  Str.startswith name "/" = false ->
  Str.startswith (posixpath.join a name) (posixpath.join a "") = true.
Proof.
  intros Hname. unfold posixpath.join. rewrite Hname. cbn [Str.startswith].
  destruct (String.eqb a "" || Str.endswith a posixpath.sep).
  - rewrite sapp_nil_r. apply startswith_app.
  - apply startswith_iff. exists name. by rewrite !sapp_assoc.
Qed.

Lemma at_or_under_trans (a b c : string) :
  at_or_under a b -> at_or_under b c -> at_or_under a c.
Proof.
  intros [->|Hab] [->|Hbc]; [by left|by right|by right|].
  right. eapply startswith_trans; [exact Hbc|].
  eapply startswith_trans; [apply join_empty_prefix|exact Hab].
Qed.

Lemma good_name_no_leading_sep (name : string) :
  good_name name -> Str.startswith name "/" = false.
Proof.
  intros (Hne & Hsep & _). destruct name as [|c name]; [done|].
  cbn [Str.contains] in Hsep. cbn [Str.startswith].
  apply orb_false_elim in Hsep as [Hc _]. apply Ascii.eqb_neq in Hc.
  rewrite andb_true_r. apply Ascii.eqb_neq. intros <-. by apply Hc.
Qed.

(** Induction on a tree, with the hypothesis for every entry of a
    directory. *)
Lemma node_nested_ind (P : node -> Prop) :
  (forall c, P (File c)) ->
  (forall es, Forall (fun e => P (snd e)) es -> P (Dir es)) ->
  forall n, P n.
Proof.
  intros HF HD. fix IH 1. intros [c|es]; [apply HF|].
  apply HD. induction es as [|[name n'] es IHes]; constructor.
  - apply IH.
  - apply IHes.
Qed.

Lemma wf_dir (es : list (string * node)) :
  wf_node (Dir es)
  <-> Forall (fun e => good_name (fst e) /\ wf_node (snd e)) es.
Proof.
  cbn [wf_node]. induction es as [|[name n'] es IH].
  - split; [constructor|done].
  - rewrite Forall_cons, <- IH. cbn [fst snd]. tauto.
Qed.

Lemma elem_of_walk_dir top es r :
  r ∈ os.walk_node top (Dir es) ->
  r = top
  \/ exists e, e ∈ es
       /\ r ∈ os.walk_node (posixpath.join top (fst e)) (snd e).
Proof.
  cbn [os.walk_node]. intros Hr.
  apply elem_of_cons in Hr as [->|Hr]; [by left|].
  right. induction es as [|[name n'] es IH]; [by apply elem_of_nil in Hr|].
  apply elem_of_app in Hr as [Hr|Hr].
  - exists (name, n'). split; [apply list_elem_of_here|done].
  - destruct (IH Hr) as (e & He & Hre). exists e.
    split; [by apply list_elem_of_further|done].
Qed.

(** Every directory [os.walk] yields lies at or under the directory the
    walk was started from. *)
Lemma walk_node_under (n : node) :
  forall top r, wf_node n -> r ∈ os.walk_node top n -> at_or_under top r.
Proof.
  induction n as [c|es IH] using node_nested_ind; intros top r Hwf Hr.
  - by apply elem_of_nil in Hr.
  - apply elem_of_walk_dir in Hr as [->|(e & He & Hr)]; [by left|].
    apply wf_dir in Hwf.
    rewrite Forall_forall in IH, Hwf.
    destruct (Hwf e He) as [Hname Hwfe].
    eapply at_or_under_trans; [|by eapply (IH e He)].
    right. by apply join_under, good_name_no_leading_sep.
Qed.

Lemma find_entry_elem name es n :
  os.find_entry name es = Some n -> exists name', (name', n) ∈ es.
Proof.
  induction es as [|[name' n'] es IH]; [done|]. cbn [os.find_entry].
  destruct (String.eqb name' name).
  - intros [= ->]. exists name'. apply list_elem_of_here.
  - intros H. destruct (IH H) as [x Hx]. exists x.
    by apply list_elem_of_further.
Qed.

Lemma resolve_wf comps : forall n n',
  wf_node n -> os.resolve n comps = Some n' -> wf_node n'.
Proof.
  induction comps as [|c comps IH]; intros n n' Hwf Hres.
  - by injection Hres as <-.
  - destruct n as [?|es]; [done|]. cbn [os.resolve] in Hres.
    destruct (os.find_entry c es) as [n1|] eqn:Hfind; [|done].
    apply (IH n1 n'); [|done].
    destruct (find_entry_elem _ _ _ Hfind) as [name' He].
    apply wf_dir in Hwf. rewrite Forall_forall in Hwf.
    by destruct (Hwf _ He).
Qed.

Lemma walk_under fs top r :
  wf_node (tree fs) -> r ∈ os.walk fs top -> at_or_under top r.
Proof.
  intros Hwf. unfold os.walk, os.lookup.
  destruct (String.eqb top ""); [intros H; by apply elem_of_nil in H|].
  destruct (os.resolve _ _) as [n|] eqn:Hres;
    [|intros H; by apply elem_of_nil in H].
  apply walk_node_under. by eapply resolve_wf.
Qed.

(** The keys of the dictionary under construction stay inside a set of
    directories closed under the roots visited. *)
Lemma visit_root_keys fs (P : string -> Prop) st root st' :
  P root ->
  (forall d, is_Some (fst st !! d) -> P d) ->
  visit_root fs st root = Ok st' ->
  forall d, is_Some (fst st' !! d) -> P d.
Proof.
  intros Hroot Hst. destruct st as [pbd found]. unfold visit_root.
  destruct (os.isfile fs _ && negb _).
  - destruct (load_gitignore_patterns fs _) as [pats| |]; [|done|done].
    cbn. intros [= <-] d. cbn [fst].
    destruct (decide (root = d)) as [<-|Hne]; [done|].
    rewrite lookup_insert_ne by done. apply Hst.
  - by intros [= <-].
Qed.

Lemma foldM_visit_keys fs (P : string -> Prop) roots : forall st st',
  (forall r, r ∈ roots -> P r) ->
  (forall d, is_Some (fst st !! d) -> P d) ->
  foldM (visit_root fs) roots st = Ok st' ->
  forall d, is_Some (fst st' !! d) -> P d.
Proof.
  induction roots as [|r roots IH]; intros st st' Hroots Hst.
  - by intros [= <-].
  - cbn [foldM]. destruct (visit_root fs st r) as [st1| |] eqn:Hv; [|done|done].
    cbn. apply IH.
    + intros r' Hr'. apply Hroots. by apply list_elem_of_further.
    + eapply visit_root_keys; [|exact Hst|exact Hv].
      apply Hroots, list_elem_of_here.
Qed.

Lemma foldM_walk_keys fs (P : string -> Prop) dirs : forall st st',
  (forall top r, top ∈ dirs -> r ∈ os.walk fs top -> P r) ->
  (forall d, is_Some (fst st !! d) -> P d) ->
  foldM (fun st top => foldM (visit_root fs) (os.walk fs top) st) dirs st
  = Ok st' ->
  forall d, is_Some (fst st' !! d) -> P d.
Proof.
  induction dirs as [|top dirs IH]; intros st st' Hdirs Hst.
  - by intros [= <-].
  - cbn [foldM].
    destruct (foldM (visit_root fs) (os.walk fs top) st) as [st1| |] eqn:Hv;
      [|done|done].
    cbn. apply IH.
    + intros top' r Htop'. apply Hdirs. by apply list_elem_of_further.
    + eapply foldM_visit_keys; [|exact Hst|exact Hv].
      intros r. apply Hdirs, list_elem_of_here.
Qed.

(** C5, as stated, fails: a start path outside the project root is walked
    like any other, and the rule file found there becomes a key. *)
Lemma index_keys_under_root_refuted :
  ~ (forall fs start_paths root (idx : index),
       collect_gitignore_patterns fs start_paths root = Ok idx ->
       forall d, is_Some (idx !! d) -> at_or_under root d).
Proof.
  intros H.
  assert (at_or_under "/proj" "/other") as [Heq|Hpre].
  { apply (H sample_fs ["/other"] "/proj"
             (<["/other" := ["y"]]> {["/proj" := ["*.log"; "!keep.log"]]})).
    - vm_compute. reflexivity.
    - exists ["y"]. vm_compute. reflexivity. }
  - discriminate Heq.
  - vm_compute in Hpre. discriminate Hpre.
Qed.

(** C5 (amended): on a tree whose entry names are proper names, if every
    directory scanned for the start paths (a start path that is a
    directory, the containing directory of a start path that is a file)
    is at or under the project root, then so is every key of the
    dictionary [collect_gitignore_patterns] returns. *)
Theorem index_keys_under_root fs start_paths root (idx : index) :
  wf_node (tree fs) ->
  (forall top, top ∈ dirs_to_scan fs start_paths -> at_or_under root top) ->
  collect_gitignore_patterns fs start_paths root = Ok idx ->
  forall d, is_Some (idx !! d) -> at_or_under root d.
Proof.
  intros Hwf Hstarts. unfold collect_gitignore_patterns.
  set (found := if os.isfile fs _ then _ else _). clearbody found.
  destruct (if os.isfile fs (posixpath.join root ".gitignore")
            then _ else _) as [pbd| |] eqn:Hroot; [|done|done].
  cbn [mbind outcome_bind].
  destruct (foldM _ _ _) as [st| |] eqn:Hfold; [|done|done].
  cbn. intros [= <-].
  eapply foldM_walk_keys; [| |exact Hfold].
  - intros top r Htop Hr.
    eapply at_or_under_trans; [by apply Hstarts|by eapply walk_under].
  - cbn [fst]. intros d Hd.
    destruct (os.isfile fs (posixpath.join root ".gitignore")).
    + destruct (load_gitignore_patterns fs _) as [pats| |]; [|done|done].
      cbn in Hroot. injection Hroot as <-.
      destruct (decide (root = d)) as [<-|Hne]; [by left|].
      rewrite lookup_singleton_ne in Hd by done. by destruct Hd.
    + cbn in Hroot. injection Hroot as <-.
      rewrite lookup_empty in Hd. by destruct Hd.
Qed.

Lemma index_keys_under_root_witness : at_or_under "/proj" "/proj/sub".
Proof.
  apply (index_keys_under_root sample_fs ["/proj/sub"; "/proj/keep.log"]
           "/proj"
           (<["/proj/sub" := ["x/"]]> {["/proj" := ["*.log"; "!keep.log"]]})).
  - cbn. repeat split; done.
  - intros top Htop. vm_compute in Htop.
    apply elem_of_cons in Htop as [->|Htop]; [right; vm_compute; reflexivity|].
    apply elem_of_cons in Htop as [->|Htop]; [by left|].
    by apply elem_of_nil in Htop.
  - vm_compute. reflexivity.
  - exists ["x/"]. vm_compute. reflexivity.
Defined.

(** ** Paths built from proper names *)

Lemma join_snoc (cs : list string) (c : string) :
  cs <> [] -> Str.join "/" (cs ++ [c]) = Str.join "/" cs +:+ "/" +:+ c.
Proof.
  induction cs as [|a cs IH]; [done|]. intros _.
  destruct cs as [|b cs]; [done|].
  change (Str.join "/" ((a :: b :: cs) ++ [c]))
    with (a +:+ "/" +:+ Str.join "/" ((b :: cs) ++ [c])).
  rewrite IH by done.
  change (Str.join "/" (a :: b :: cs))
    with (a +:+ "/" +:+ Str.join "/" (b :: cs)).
  by rewrite !sapp_assoc.
Qed.

Lemma abs_path_snoc (cs : list string) (c : string) :
  cs <> [] -> abs_path (cs ++ [c]) = abs_path cs +:+ "/" +:+ c.
Proof.
  intros Hne. unfold abs_path. rewrite join_snoc by done.
  by rewrite !sapp_assoc.
Qed.

Lemma abs_path_single (c : string) : abs_path [c] = "" +:+ "/" +:+ c.
Proof. reflexivity. Qed.

Lemma rfind_no_sep (c : string) :
  Str.contains posixpath.sep c = false -> Str.rfind posixpath.sep c = None.
Proof.
  induction c as [|a c IH]; [done|]. cbn [Str.contains Str.rfind].
  intros H. apply orb_false_elim in H as [Ha Hc].
  by rewrite (IH Hc), Ha.
Qed.

Lemma rfind_app_sep (s c : string) :
  Str.contains posixpath.sep c = false ->
  Str.rfind posixpath.sep (s +:+ "/" +:+ c) = Some (String.length s).
Proof.
  intros Hc. induction s as [|a s IH].
  - rewrite sapp_nil_l.
    change ("/" +:+ c) with (String posixpath.sep c).
    cbn [Str.rfind]. by rewrite (rfind_no_sep c Hc), Ascii.eqb_refl.
  - rewrite sapp_cons. cbn [Str.rfind]. by rewrite IH.
Qed.

Lemma drop_app (s t : string) : Str.drop (String.length s) (s +:+ t) = t.
Proof. induction s as [|a s IH]; [by destruct t|]. by rewrite sapp_cons. Qed.

Lemma take_app (s t : string) : Str.take (String.length s) (s +:+ t) = s.
Proof.
  induction s as [|a s IH]; [by destruct t|].
  rewrite sapp_cons. cbn. by rewrite IH.
Qed.

Lemma basename_app_sep (s c : string) :
  Str.contains posixpath.sep c = false ->
  posixpath.basename (s +:+ "/" +:+ c) = c.
Proof.
  intros Hc. unfold posixpath.basename, Str.rfind_succ.
  rewrite rfind_app_sep by done.
  replace (S (String.length s)) with (String.length (s +:+ "/")).
  - by rewrite <- sapp_assoc, drop_app.
  - rewrite sapp_length. cbn. lia.
Qed.

Lemma rstrip_app_sep (s : string) :
  s <> "" -> Str.endswith s posixpath.sep = false ->
  Str.rstrip posixpath.is_sep (s +:+ "/") = s
  /\ Str.all_char posixpath.sep (s +:+ "/") = false.
Proof.
  induction s as [|a s IH]; [done|]. intros _ Hend.
  rewrite sapp_cons. cbn [Str.rstrip Str.all_char].
  destruct s as [|b s].
  - cbn in Hend. rewrite sapp_nil_l. cbn.
    unfold posixpath.is_sep. by rewrite Hend.
  - destruct IH as [IH1 IH2]; [done|done|].
    rewrite IH1, IH2. by rewrite andb_false_r.
Qed.

Lemma dirname_app_sep (s c : string) :
  s <> "" -> Str.endswith s posixpath.sep = false ->
  Str.contains posixpath.sep c = false ->
  posixpath.dirname (s +:+ "/" +:+ c) = s.
Proof.
  intros Hs Hend Hc. unfold posixpath.dirname, Str.rfind_succ.
  rewrite rfind_app_sep by done.
  replace (S (String.length s)) with (String.length (s +:+ "/"))
    by (rewrite sapp_length; cbn; lia).
  rewrite <- sapp_assoc, take_app.
  destruct (rstrip_app_sep s Hs Hend) as [-> ->].
  destruct s; [done|]. by rewrite sapp_cons.
Qed.

Lemma endswith_app (s t : string) (c : ascii) :
  t <> "" -> Str.endswith (s +:+ t) c = Str.endswith t c.
Proof.
  intros Ht. induction s as [|a s IH]; [done|].
  rewrite sapp_cons. cbn [Str.endswith].
  destruct (s +:+ t) eqn:E; [|done].
  destruct s; [by rewrite sapp_nil_l in E|by rewrite sapp_cons in E].
Qed.

Lemma endswith_no_sep (c : string) :
  Str.contains posixpath.sep c = false -> Str.endswith c posixpath.sep = false.
Proof.
  induction c as [|a c IH]; [done|]. cbn [Str.contains Str.endswith].
  intros H. apply orb_false_elim in H as [Ha Hc].
  destruct c; [done|]. by apply IH.
Qed.

Lemma endswith_cons (a : ascii) (s : string) (c : ascii) :
  s <> "" -> Str.endswith (String a s) c = Str.endswith s c.
Proof. by destruct s. Qed.

Lemma join_last_clean (cs : list string) :
  Forall good_name cs -> cs <> [] ->
  Str.join "/" cs <> "" /\ Str.endswith (Str.join "/" cs) posixpath.sep = false.
Proof.
  induction 1 as [|c cs (Hne & Hsep & _) Hcs IH]; [done|]. intros _.
  destruct cs as [|b cs].
  - split; [done|by apply endswith_no_sep].
  - change (Str.join "/" (c :: b :: cs))
      with (c +:+ String "/" (Str.join "/" (b :: cs))).
    destruct IH as [IH1 IH2]; [done|].
    split; [by destruct c|].
    by rewrite endswith_app, endswith_cons.
Qed.

Lemma abs_path_clean (cs : list string) :
  Forall good_name cs -> cs <> [] ->
  Str.endswith (abs_path cs) posixpath.sep = false.
Proof.
  intros Hg Hne. destruct (join_last_clean cs Hg Hne) as [H1 H2].
  unfold abs_path. by rewrite endswith_app.
Qed.

(** The parent directory and the last name of a path. *)
Lemma dirname_abs_path (cs : list string) (c : string) :
  Forall good_name cs -> good_name c ->
  posixpath.dirname (abs_path (cs ++ [c])) = abs_path cs.
Proof.
  intros Hcs (_ & Hsep & _). destruct (decide (cs = [])) as [->|Hne].
  - cbn [app]. rewrite abs_path_single.
    unfold posixpath.dirname, Str.rfind_succ.
    by rewrite rfind_app_sep.
  - rewrite abs_path_snoc by done.
    apply dirname_app_sep; [done|by apply abs_path_clean|done].
Qed.

Lemma basename_abs_path (cs : list string) (c : string) :
  good_name c -> posixpath.basename (abs_path (cs ++ [c])) = c.
Proof.
  intros (_ & Hsep & _). destruct (decide (cs = [])) as [->|Hne].
  - cbn [app]. rewrite abs_path_single. by apply basename_app_sep.
  - rewrite abs_path_snoc by done. by apply basename_app_sep.
Qed.

Lemma split_no_sep (c : string) :
  Str.contains posixpath.sep c = false -> Str.split posixpath.sep c = [c].
Proof.
  induction c as [|a c IH]; [done|]. cbn [Str.contains Str.split].
  intros H. apply orb_false_elim in H as [Ha Hc].
  by rewrite Ha, (IH Hc).
Qed.

Lemma split_app_sep (c s : string) :
  Str.contains posixpath.sep c = false ->
  Str.split posixpath.sep (c +:+ "/" +:+ s) = c :: Str.split posixpath.sep s.
Proof.
  intros Hc. induction c as [|a c IH].
  - rewrite sapp_nil_l. change ("/" +:+ s) with (String posixpath.sep s).
    cbn [Str.split]. by rewrite Ascii.eqb_refl.
  - cbn [Str.contains] in Hc. apply orb_false_elim in Hc as [Ha Hc].
    rewrite sapp_cons. cbn [Str.split]. by rewrite Ha, (IH Hc).
Qed.

Lemma split_join (cs : list string) :
  Forall good_name cs -> cs <> [] ->
  Str.split posixpath.sep (Str.join "/" cs) = cs.
Proof.
  induction 1 as [|c cs (Hne & Hsep & _) Hcs IH]; [done|]. intros _.
  destruct cs as [|b cs]; [by apply split_no_sep|].
  change (Str.join "/" (c :: b :: cs))
    with (c +:+ "/" +:+ Str.join "/" (b :: cs)).
  rewrite split_app_sep by done. by rewrite IH.
Qed.

Lemma split_abs_path (cs : list string) :
  Forall good_name cs -> cs <> [] ->
  Str.split posixpath.sep (abs_path cs) = "" :: cs.
Proof.
  intros Hg Hne. unfold abs_path.
  change ("/" +:+ Str.join "/" cs)
    with (String posixpath.sep (Str.join "/" cs)).
  cbn [Str.split]. by rewrite Ascii.eqb_refl, split_join.
Qed.

Lemma mem_false (x : string) (l : list string) :
  x ∉ l -> Str.mem x l = false.
Proof.
  intros Hx. unfold Str.mem. apply existsb_false_iff.
  intros y Hy. apply String.eqb_neq. by intros ->.
Qed.

(** A path none of whose components is [.git] is outside every [.git]
    directory. *)
Lemma in_git_dir_abs_path fs (cs : list string) :
  Forall good_name cs -> cs <> [] -> ".git" ∉ cs ->
  in_git_dir fs (abs_path cs) = false.
Proof.
  intros Hg Hne Hgit. unfold in_git_dir.
  rewrite split_abs_path by done.
  rewrite mem_false; [done|].
  rewrite not_elem_of_cons. by split.
Qed.

Lemma normpath_step_good (acc : list string) (c : string) :
  good_name c -> posixpath.normpath_step 1 acc c = acc ++ [c].
Proof.
  intros (Hne & _ & Hdot & Hdots). unfold posixpath.normpath_step.
  apply String.eqb_neq in Hne, Hdot, Hdots. by rewrite Hne, Hdot, Hdots.
Qed.

Lemma normpath_fold_good (cs acc : list string) :
  Forall good_name cs ->
  fold_left (posixpath.normpath_step 1) cs acc = acc ++ cs.
Proof.
  intros Hg. revert acc.
  induction Hg as [|c cs Hc _ IH]; intros acc.
  - by rewrite List.app_nil_r.
  - cbn [fold_left]. rewrite normpath_step_good by done.
    by rewrite IH, <- List.app_assoc.
Qed.

Lemma join_no_leading_sep (cs : list string) :
  Forall good_name cs -> Str.startswith (Str.join "/" cs) "/" = false.
Proof.
  destruct 1 as [|c cs Hc _]; [done|].
  pose proof (good_name_no_leading_sep c Hc) as Hlead.
  destruct Hc as (Hne & _). destruct c as [|a c]; [done|].
  destruct cs as [|b cs]; [done|].
  change (Str.join "/" (String a c :: b :: cs))
    with (String a (c +:+ "/" +:+ Str.join "/" (b :: cs))).
  cbn [Str.startswith] in *. exact Hlead.
Qed.

(** A path made of proper names is already normal. *)
Lemma normpath_abs_path (cs : list string) :
  Forall good_name cs -> posixpath.normpath (abs_path cs) = abs_path cs.
Proof.
  intros Hg. unfold posixpath.normpath.
  assert (Str.startswith (abs_path cs) "//" = false) as Hslashes.
  { pose proof (join_no_leading_sep cs Hg) as H. unfold abs_path.
    change ("/" +:+ Str.join "/" cs) with (String "/" (Str.join "/" cs)).
    cbn [Str.startswith] in *. destruct (Str.join "/" cs); [done|].
    by rewrite H. }
  change (String.eqb (abs_path cs) "") with false.
  change (Str.startswith (abs_path cs) "/") with true.
  rewrite Hslashes. cbn [andb].
  destruct (decide (cs = [])) as [->|Hne]; [done|].
  rewrite split_abs_path by done. cbn [fold_left].
  change (posixpath.normpath_step 1 [] "") with (@nil string).
  rewrite normpath_fold_good by done. cbn [app]. done.
Qed.

Lemma lstrip_abs_path (cs : list string) :
  Forall good_name cs ->
  Str.lstrip posixpath.is_sep (abs_path cs) = Str.join "/" cs.
Proof.
  intros Hg. pose proof (join_no_leading_sep cs Hg) as H. unfold abs_path.
  change ("/" +:+ Str.join "/" cs) with (String "/" (Str.join "/" cs)).
  cbn [Str.lstrip]. change (posixpath.is_sep "/") with true. cbn iota.
  destruct (Str.join "/" cs) as [|a s]; [done|].
  cbn [Str.lstrip Str.startswith] in *. rewrite andb_true_r in H.
  unfold posixpath.is_sep, posixpath.sep. rewrite Ascii.eqb_sym. by rewrite H.
Qed.

(** The component list [relpath] works on. *)
Lemma relpath_components cwd (cs : list string) :
  Forall good_name cs ->
  (let t := Str.lstrip posixpath.is_sep (posixpath.abspath cwd (abs_path cs)) in
   if String.eqb t "" then [] else Str.split posixpath.sep t) = cs.
Proof.
  intros Hg. cbn zeta. unfold posixpath.abspath.
  change (posixpath.isabs (abs_path cs)) with true. cbn iota.
  rewrite normpath_abs_path, lstrip_abs_path by done.
  destruct (decide (cs = [])) as [->|Hne]; [done|].
  destruct (join_last_clean cs Hg Hne) as [Hjoin _].
  apply String.eqb_neq in Hjoin. rewrite Hjoin. by apply split_join.
Qed.

Lemma commonprefix_app (a b : list string) :
  posixpath.commonprefix a (a ++ b) = a.
Proof.
  induction a as [|x a IH]; [done|].
  cbn. by rewrite String.eqb_refl, IH.
Qed.

(** The path of [a ++ b] relative to the directory [a]. *)
Lemma relpath_abs_path cwd (a b : list string) :
  Forall good_name a -> Forall good_name b -> b <> [] ->
  posixpath.relpath cwd (abs_path (a ++ b)) (abs_path a)
  = Some (Str.join "/" b).
Proof.
  intros Ha Hb Hne. unfold posixpath.relpath.
  change (String.eqb (abs_path (a ++ b)) "") with false. cbn iota.
  pose proof (relpath_components cwd a Ha) as Hca.
  pose proof (relpath_components cwd (a ++ b)) as Hcb.
  cbn zeta in Hca, Hcb. rewrite Hca, Hcb by by apply Forall_app.
  rewrite commonprefix_app, Nat.sub_diag. cbn [repeat app].
  rewrite drop_app_length'  by done.
  destruct b; [done|]. done.
Qed.

Lemma replace_sep (s : string) : Str.replace posixpath.sep "/" s = s.
Proof.
  induction s as [|a s IH]; [done|]. cbn [Str.replace]. rewrite IH.
  destruct (Ascii.eqb_spec a posixpath.sep) as [->|]; done.
Qed.

Lemma abs_path_snoc_longer (cs : list string) (c : string) :
  c <> "" ->
  String.length (abs_path cs) < String.length (abs_path (cs ++ [c])).
Proof.
  intros Hc. destruct (decide (cs = [])) as [->|Hne].
  - cbn [app]. rewrite abs_path_single, !sapp_length.
    change (abs_path []) with "/". destruct c; [done|]. cbn. lia.
  - rewrite abs_path_snoc by done. rewrite !sapp_length. cbn. lia.
Qed.

Lemma abs_path_app_longer (a l : list string) :
  Forall good_name l ->
  String.length (abs_path a) <= String.length (abs_path (a ++ l)).
Proof.
  induction l as [|x l IH] using rev_ind; intros Hg.
  - by rewrite List.app_nil_r.
  - apply Forall_app in Hg as [Hl Hx]. rewrite Forall_singleton in Hx.
    rewrite List.app_assoc.
    pose proof (abs_path_snoc_longer (a ++ l) x (proj1 Hx)).
    specialize (IH Hl). lia.
Qed.

(** The upward loop started below a directory of the tree passes through
    that directory. *)
Lemma ancestors_passes rootc base (sub : list string) :
  Forall good_name (rootc ++ base ++ sub) ->
  forall fuel,
    String.length (abs_path (rootc ++ base ++ sub)) < fuel ->
    abs_path (rootc ++ base)
    ∈ ancestors fuel (abs_path rootc) (abs_path (rootc ++ base ++ sub)).
Proof.
  induction sub as [|x sub IH] using rev_ind; intros Hg fuel Hfuel.
  - rewrite List.app_nil_r in *. destruct fuel; [lia|]. apply list_elem_of_here.
  - destruct fuel as [|fuel]; [lia|]. cbn [ancestors].
    rewrite !List.app_assoc in Hg, Hfuel |- *.
    apply Forall_app in Hg as [Hg Hx]. rewrite Forall_singleton in Hx.
    rewrite dirname_abs_path by done.
    pose proof (abs_path_snoc_longer ((rootc ++ base) ++ sub) x (proj1 Hx))
      as Hlt.
    assert (String.length (abs_path rootc)
            <= String.length (abs_path ((rootc ++ base) ++ sub))) as Hle.
    { rewrite <- List.app_assoc. apply abs_path_app_longer.
      rewrite <- List.app_assoc in Hg. by apply Forall_app in Hg as [_ Hg]. }
    set (temp := abs_path (((rootc ++ base) ++ sub) ++ [x])) in *.
    set (parent := abs_path ((rootc ++ base) ++ sub)) in *.
    assert (String.eqb temp (abs_path rootc) = false) as ->.
    { apply String.eqb_neq. intros E. rewrite E in Hlt. lia. }
    assert (String.eqb temp "" = false) as -> by done.
    assert (String.eqb temp parent = false) as ->.
    { apply String.eqb_neq. intros E. rewrite E in Hlt. lia. }
    cbn [orb]. apply list_elem_of_further.
    subst parent. rewrite <- List.app_assoc in *.
    apply IH; [done|lia].
Qed.

Lemma in_chain rootc base sub (name : string) :
  Forall good_name (rootc ++ base ++ sub) -> good_name name ->
  abs_path (rootc ++ base)
  ∈ chain (abs_path rootc) (abs_path ((rootc ++ base ++ sub) ++ [name])).
Proof.
  intros Hg Hname. unfold chain. rewrite dirname_abs_path by done.
  apply ancestors_passes; [done|lia].
Qed.

Lemma denylisted_abs_path fs (cs : list string) (name : string) :
  Forall good_name cs -> good_name name ->
  ".git" ∉ cs -> name <> ".git" ->
  name ∉ ALWAYS_IGNORE_FILENAMES ->
  denylisted fs (abs_path (cs ++ [name])) = false.
Proof.
  intros Hg Hname Hgit Hgit' Hdeny. unfold denylisted.
  rewrite basename_abs_path, mem_false by done. cbn [orb].
  apply in_git_dir_abs_path.
  - apply Forall_app. split; [done|by apply Forall_singleton].
  - by destruct cs.
  - rewrite elem_of_app, list_elem_of_singleton. by intros [?|?].
Qed.

Lemma rule_hits_abs_path fs (a b : list string) (pat : string) :
  Forall good_name a -> Forall good_name b -> b <> [] ->
  rule_hits fs (abs_path (a ++ b)) (abs_path a, pat)
  = pattern_matches (Str.join "/" b) (strip_negation pat).
Proof.
  intros Ha Hb Hne. unfold rule_hits. cbn [fst snd].
  by rewrite relpath_abs_path, replace_sep.
Qed.

(** ** Verdicts read off the rules of the walk *)

Lemma run_negated fs path root (idx : index) r :
  denylisted fs path = false ->
  r ∈ walk_rules root path idx ->
  hits_negated fs path r = true ->
  isIgnored fs path root idx = Ok false.
Proof.
  intros Hdeny Hr Hhit. rewrite isIgnored_run, Hdeny.
  destruct (String.eqb_spec path "") as [->|Hne].
  { unfold hits_negated, rule_hits in Hhit. by rewrite relpath_empty in Hhit. }
  assert (existsb (hits_negated fs path) (walk_rules root path idx) = true)
    as ->; [|done].
  apply existsb_exists. exists r. by rewrite <- list_elem_of_In.
Qed.

Lemma run_plain fs path root (idx : index) r :
  denylisted fs path = false ->
  r ∈ walk_rules root path idx ->
  hits_plain fs path r = true ->
  (forall r', r' ∈ walk_rules root path idx ->
              hits_negated fs path r' = false) ->
  isIgnored fs path root idx = Ok true.
Proof.
  intros Hdeny Hr Hhit Hnone. rewrite isIgnored_run, Hdeny.
  destruct (String.eqb_spec path "") as [->|Hne].
  { unfold hits_plain, rule_hits in Hhit. by rewrite relpath_empty in Hhit. }
  assert (existsb (hits_negated fs path) (walk_rules root path idx) = false)
    as -> by by apply existsb_false_iff.
  assert (existsb (hits_plain fs path) (walk_rules root path idx) = true)
    as ->; [|done].
  apply existsb_exists. exists r. by rewrite <- list_elem_of_In.
Qed.

Lemma run_none fs path root (idx : index) :
  path <> "" ->
  denylisted fs path = false ->
  (forall r, r ∈ walk_rules root path idx -> hits_plain fs path r = false) ->
  isIgnored fs path root idx = Ok false.
Proof.
  intros Hne Hdeny Hnone. rewrite isIgnored_run, Hdeny.
  destruct (String.eqb_spec path ""); [done|].
  assert (existsb (hits_plain fs path) (walk_rules root path idx) = false)
    as -> by by apply existsb_false_iff.
  by rewrite andb_false_r.
Qed.

(** The rules of the walk when a single directory has a rule file. *)
Lemma walk_rules_singleton root path d rules r :
  r ∈ walk_rules root path ({[d := rules]} : index) ->
  exists pat, r = (d, pat) /\ pat ∈ rules.
Proof.
  destruct r as [d' pat]. rewrite elem_of_walk_rules.
  intros (_ & pats & Hlook & Hpat).
  apply lookup_singleton_Some in Hlook as [<- <-]. by exists pat.
Qed.

(** The rules stored under a directory on the way from the path to the
    root are rules of the walk. *)
Lemma walk_rules_below rootc base sub name (idx : index) rules pat :
  Forall good_name rootc -> Forall good_name base -> Forall good_name sub ->
  good_name name ->
  idx !! abs_path (rootc ++ base) = Some rules ->
  pat ∈ rules ->
  (abs_path (rootc ++ base), pat)
  ∈ walk_rules (abs_path rootc) (abs_path ((rootc ++ base) ++ sub ++ [name]))
               idx.
Proof.
  intros Hr Hb Hs Hn Hlook Hpat. apply elem_of_walk_rules. split; [|eauto].
  rewrite (List.app_assoc _ sub [name]), <- (List.app_assoc rootc base sub).
  apply in_chain; [|done]. by rewrite !Forall_app.
Qed.

Lemma denylisted_below fs rootc sub name :
  Forall good_name rootc -> Forall good_name sub -> good_name name ->
  ".git" ∉ rootc -> ".git" ∉ sub -> name <> ".git" ->
  name ∉ ALWAYS_IGNORE_FILENAMES ->
  denylisted fs (abs_path (rootc ++ sub ++ [name])) = false.
Proof.
  intros Hr Hs Hn Hgr Hgs Hgn Hdeny. rewrite List.app_assoc.
  apply denylisted_abs_path; try done.
  - by rewrite Forall_app.
  - rewrite elem_of_app. by intros [?|?].
Qed.

Ltac good_names :=
  repeat first
    [ apply Forall_nil_2
    | apply Forall_cons; split
    | apply Forall_app; split
    | assumption
    | split; [discriminate|split; [reflexivity|split; discriminate]] ].

Ltac not_listed :=
  repeat first
    [ apply not_elem_of_nil
    | apply not_elem_of_cons; split; [discriminate|]
    | apply not_elem_of_app; split
    | assumption ].

Ltac side :=
  first [ solve [good_names] | solve [not_listed] | discriminate
        | apply lookup_singleton_eq ].

Lemma walk_rules_at_root rootc sub name (idx : index) rules pat :
  Forall good_name rootc -> Forall good_name sub -> good_name name ->
  idx !! abs_path rootc = Some rules ->
  pat ∈ rules ->
  (abs_path rootc, pat)
  ∈ walk_rules (abs_path rootc) (abs_path (rootc ++ sub ++ [name])) idx.
Proof.
  intros Hr Hs Hn Hlook Hpat.
  pose proof (walk_rules_below rootc [] sub name idx rules pat) as H.
  rewrite List.app_nil_r in H. by apply H.
Qed.

Lemma hits_at_root fs rootc below pat :
  Forall good_name rootc -> Forall good_name below -> below <> [] ->
  rule_hits fs (abs_path (rootc ++ below)) (abs_path rootc, pat)
  = pattern_matches (Str.join "/" below) (strip_negation pat).
Proof. apply rule_hits_abs_path. Qed.

(** ** Scenarios of the specification *)

(** C3: with the root rules [*.log] then [!keep.log], under a root made of
    proper names none of which is [.git], [keep.log] is not ignored and
    [other.log] is. *)
Theorem log_then_keep fs rootc :
  Forall good_name rootc -> ".git" ∉ rootc ->
  let root := abs_path rootc in
  let idx : index := {[root := ["*.log"; "!keep.log"]]} in
  isIgnored fs (abs_path (rootc ++ ["keep.log"])) root idx = Ok false
  /\ isIgnored fs (abs_path (rootc ++ ["other.log"])) root idx = Ok true.
Proof.
  intros Hg Hgit root idx. split.
  - apply (run_negated _ _ _ _ (root, "!keep.log")).
    + apply (denylisted_below fs rootc [] "keep.log"); side.
    + apply (walk_rules_at_root rootc [] "keep.log" idx
               ["*.log"; "!keep.log"]); try side.
      apply list_elem_of_further, list_elem_of_here.
    + unfold hits_negated. cbn [snd].
      rewrite (hits_at_root fs rootc ["keep.log"]) by side.
      vm_compute. reflexivity.
  - apply (run_plain _ _ _ _ (root, "*.log")).
    + apply (denylisted_below fs rootc [] "other.log"); side.
    + apply (walk_rules_at_root rootc [] "other.log" idx
               ["*.log"; "!keep.log"]); try side.
      apply list_elem_of_here.
    + unfold hits_plain. cbn [snd].
      rewrite (hits_at_root fs rootc ["other.log"]) by side.
      vm_compute. reflexivity.
    + intros r' Hr'. apply walk_rules_singleton in Hr' as (pat & -> & Hpat).
      unfold hits_negated. cbn [snd].
      rewrite (hits_at_root fs rootc ["other.log"]) by side.
      repeat (apply elem_of_cons in Hpat as [->|Hpat];
              [vm_compute; reflexivity|]).
      by apply elem_of_nil in Hpat.
Qed.

Lemma log_then_keep_witness :
  isIgnored sample_fs "/proj/keep.log" "/proj"
            ({["/proj" := ["*.log"; "!keep.log"]]} : index) = Ok false
  /\ isIgnored sample_fs "/proj/other.log" "/proj"
               ({["/proj" := ["*.log"; "!keep.log"]]} : index) = Ok true.
Proof.
  apply (log_then_keep sample_fs ["proj"]).
  - side.
  - side.
Defined.

(** The matcher on a directory-only pattern (lines 157-163). *)
Lemma pattern_matches_directory_only rel pattern :
  Str.endswith pattern "/" = true ->
  pattern_matches rel pattern = Str.startswith (rel +:+ "/") pattern.
Proof. intros H. unfold pattern_matches. by rewrite H. Qed.

(** C7: with the single root rule [foo/], [foo/bar.txt] and [foo] itself
    are ignored and [barfoo/x] is not; a directory-only pattern matches
    exactly when the relative path followed by a separator begins with
    it. *)
Theorem directory_only_rule fs rootc :
  Forall good_name rootc -> ".git" ∉ rootc ->
  let root := abs_path rootc in
  let idx : index := {[root := ["foo/"]]} in
  isIgnored fs (abs_path (rootc ++ ["foo"; "bar.txt"])) root idx = Ok true
  /\ isIgnored fs (abs_path (rootc ++ ["foo"])) root idx = Ok true
  /\ isIgnored fs (abs_path (rootc ++ ["barfoo"; "x"])) root idx = Ok false
  /\ (forall rel pattern,
        Str.endswith pattern "/" = true ->
        pattern_matches rel pattern = Str.startswith (rel +:+ "/") pattern).
Proof.
  intros Hg Hgit root idx.
  assert (forall sub name,
            Forall good_name sub -> good_name name ->
            (abs_path rootc, "foo/")
            ∈ walk_rules root (abs_path (rootc ++ sub ++ [name])) idx) as Hin.
  { intros sub name Hs Hn.
    apply (walk_rules_at_root rootc sub name idx ["foo/"]); try done.
    - apply lookup_singleton_eq.
    - apply list_elem_of_here. }
  assert (forall path r', r' ∈ walk_rules root path idx ->
                          hits_negated fs path r' = false) as Hnoneg.
  { intros path r' Hr'. apply walk_rules_singleton in Hr' as (pat & -> & Hpat).
    apply list_elem_of_singleton in Hpat as ->.
    unfold hits_negated. cbn [snd]. change (is_negation "foo/") with false.
    apply andb_false_r. }
  split; [|split; [|split]].
  - apply (run_plain _ _ _ _ (root, "foo/")); [| | |apply Hnoneg].
    + apply (denylisted_below fs rootc ["foo"] "bar.txt"); side.
    + apply (Hin ["foo"] "bar.txt"); side.
    + unfold hits_plain. cbn [snd].
      rewrite (hits_at_root fs rootc ["foo"; "bar.txt"]) by side.
      vm_compute. reflexivity.
  - apply (run_plain _ _ _ _ (root, "foo/")); [| | |apply Hnoneg].
    + apply (denylisted_below fs rootc [] "foo"); side.
    + apply (Hin [] "foo"); side.
    + unfold hits_plain. cbn [snd].
      rewrite (hits_at_root fs rootc ["foo"]) by side.
      vm_compute. reflexivity.
  - apply run_none; [done| |].
    + apply (denylisted_below fs rootc ["barfoo"] "x"); side.
    + intros r' Hr'. apply walk_rules_singleton in Hr' as (pat & -> & Hpat).
      apply list_elem_of_singleton in Hpat as ->.
      unfold hits_plain. cbn [snd].
      rewrite (hits_at_root fs rootc ["barfoo"; "x"]) by side.
      vm_compute. reflexivity.
  - apply pattern_matches_directory_only.
Qed.

Lemma directory_only_rule_witness :
  isIgnored sample_fs "/proj/foo/bar.txt" "/proj"
            ({["/proj" := ["foo/"]]} : index) = Ok true
  /\ isIgnored sample_fs "/proj/foo" "/proj"
               ({["/proj" := ["foo/"]]} : index) = Ok true
  /\ isIgnored sample_fs "/proj/barfoo/x" "/proj"
               ({["/proj" := ["foo/"]]} : index) = Ok false.
Proof.
  destruct (directory_only_rule sample_fs ["proj"]) as (H1 & H2 & H3 & _).
  - side.
  - side.
  - exact (conj H1 (conj H2 H3)).
Defined.

Lemma basename_no_sep (c : string) :
  Str.contains posixpath.sep c = false -> posixpath.basename c = c.
Proof.
  intros Hc. unfold posixpath.basename, Str.rfind_succ.
  rewrite rfind_no_sep by done. by destruct c.
Qed.

Lemma basename_join (sub : list string) (name : string) :
  good_name name -> posixpath.basename (Str.join "/" (sub ++ [name])) = name.
Proof.
  intros (_ & Hsep & _). destruct (decide (sub = [])) as [->|Hne].
  - by apply basename_no_sep.
  - rewrite join_snoc by done. by apply basename_app_sep.
Qed.

(** The matcher on a pattern without separator (lines 164-176): a match
    of the last segment is enough. *)
Lemma pattern_matches_basename rel pattern :
  Str.contains "/" pattern = false ->
  fnmatch.fnmatch (posixpath.basename rel) pattern = true ->
  pattern_matches rel pattern = true.
Proof.
  intros Hsep Hmatch. unfold pattern_matches.
  assert (Str.endswith pattern "/" = false) as ->.
  { by apply endswith_no_sep. }
  by rewrite Hsep, Hmatch.
Qed.

(** A rule file in [D] holding only [*.log] ignores [app.log] at any
    depth below [D]. *)
Lemma unanchored_any_depth fs rootc dc subs :
  Forall good_name rootc -> Forall good_name dc -> Forall good_name subs ->
  ".git" ∉ rootc -> ".git" ∉ dc -> ".git" ∉ subs ->
  isIgnored fs (abs_path (rootc ++ dc ++ subs ++ ["app.log"]))
            (abs_path rootc)
            ({[abs_path (rootc ++ dc) := ["*.log"]]} : index)
  = Ok true.
Proof.
  intros Hr Hd Hs Hgr Hgd Hgs.
  assert (good_name "app.log") as Hn by side.
  apply (run_plain _ _ _ _ (abs_path (rootc ++ dc), "*.log")).
  - rewrite (List.app_assoc dc subs).
    apply denylisted_below; done || side.
  - rewrite (List.app_assoc rootc dc).
    apply (walk_rules_below rootc dc subs "app.log" _ ["*.log"]); try done.
    + apply lookup_singleton_eq.
    + apply list_elem_of_here.
  - unfold hits_plain. cbn [snd]. rewrite (List.app_assoc rootc dc).
    rewrite rule_hits_abs_path;
      [|by apply Forall_app|apply Forall_app; split; [done|side]
       |by destruct subs].
    change (is_negation "*.log") with false.
    change (strip_negation "*.log") with "*.log".
    rewrite andb_true_r. apply pattern_matches_basename; [done|].
    by rewrite basename_join.
  - intros r' Hr'. apply walk_rules_singleton in Hr' as (pat & -> & Hpat).
    apply list_elem_of_singleton in Hpat as ->.
    unfold hits_negated. cbn [snd]. change (is_negation "*.log") with false.
    apply andb_false_r.
Qed.

(** C8: a rule file in a directory [D] at or under the root whose only
    rule is [*.log] ignores [D/app.log], [D/sub/app.log] and [app.log] at
    any depth below [D]; a pattern without separator matches whenever
    the glob matches the last segment of the relative path. *)
Theorem unanchored_rule fs rootc dc :
  Forall good_name rootc -> Forall good_name dc ->
  ".git" ∉ rootc -> ".git" ∉ dc ->
  let root := abs_path rootc in
  let idx : index := {[abs_path (rootc ++ dc) := ["*.log"]]} in
  isIgnored fs (abs_path (rootc ++ dc ++ ["app.log"])) root idx = Ok true
  /\ isIgnored fs (abs_path (rootc ++ dc ++ ["sub"; "app.log"])) root idx
     = Ok true
  /\ (forall subs, Forall good_name subs -> ".git" ∉ subs ->
        isIgnored fs (abs_path (rootc ++ dc ++ subs ++ ["app.log"])) root idx
        = Ok true)
  /\ (forall rel pattern,
        Str.contains "/" pattern = false ->
        fnmatch.fnmatch (posixpath.basename rel) pattern = true ->
        pattern_matches rel pattern = true).
Proof.
  intros Hr Hd Hgr Hgd root idx. split; [|split; [|split]].
  - apply (unanchored_any_depth fs rootc dc []); done || side.
  - apply (unanchored_any_depth fs rootc dc ["sub"]); done || side.
  - intros subs Hs Hgs. by apply unanchored_any_depth.
  - apply pattern_matches_basename.
Qed.

Lemma unanchored_rule_witness :
  isIgnored sample_fs "/proj/d/app.log" "/proj"
            ({["/proj/d" := ["*.log"]]} : index) = Ok true
  /\ isIgnored sample_fs "/proj/d/sub/app.log" "/proj"
               ({["/proj/d" := ["*.log"]]} : index) = Ok true.
Proof.
  destruct (unanchored_rule sample_fs ["proj"] ["d"]) as (H1 & H2 & _).
  - side.
  - side.
  - side.
  - side.
  - exact (conj H1 H2).
Defined.

(** C2, as stated, fails: the root rule [!important.txt] matches the path
    and the call returns [false]. *)
Lemma nested_rule_overrides_refuted :
  isIgnored sample_fs "/proj/sub/important.txt" "/proj"
    (<["/proj/sub" := ["important.txt"]]> {["/proj" := ["!important.txt"]]}
     : index)
  <> Ok true.
Proof. vm_compute. discriminate. Qed.

(** C2 (amended): when the root rule file holds [!important.txt] and the
    rule file of [sub] holds [important.txt], [sub/important.txt] is not
    ignored: the negation of the root is met later in the walk and
    stands. *)
Theorem nested_rule_under_root_negation fs rootc :
  Forall good_name rootc -> ".git" ∉ rootc ->
  let root := abs_path rootc in
  let idx : index :=
    <[abs_path (rootc ++ ["sub"]) := ["important.txt"]]>
      {[root := ["!important.txt"]]} in
  isIgnored fs (abs_path (rootc ++ ["sub"; "important.txt"])) root idx
  = Ok false.
Proof.
  intros Hg Hgit root idx.
  apply (run_negated _ _ _ _ (root, "!important.txt")).
  - apply (denylisted_below fs rootc ["sub"] "important.txt"); side.
  - apply (walk_rules_at_root rootc ["sub"] "important.txt" idx
             ["!important.txt"]); try side.
    + unfold idx. rewrite lookup_insert_ne; [apply lookup_singleton_eq|].
      intros E.
      pose proof (abs_path_snoc_longer rootc "sub" ltac:(discriminate)) as Hlt.
      rewrite E in Hlt. unfold root in Hlt. lia.
    + apply list_elem_of_here.
  - unfold hits_negated. cbn [snd].
    rewrite (hits_at_root fs rootc ["sub"; "important.txt"]) by side.
    vm_compute. reflexivity.
Qed.

Lemma nested_rule_under_root_negation_witness :
  isIgnored sample_fs "/proj/sub/important.txt" "/proj"
    (<["/proj/sub" := ["important.txt"]]> {["/proj" := ["!important.txt"]]}
     : index)
  = Ok false.
Proof.
  apply (nested_rule_under_root_negation sample_fs ["proj"]).
  - side.
  - side.
Defined.

(** ** Further properties of the resolver *)

(** X1: the only exception [is_file_ignored] lets out is the [ValueError]
    of [os.path.relpath], and only for the empty path; in particular the
    subscript of line 139 never raises [KeyError]. *)
Theorem is_file_ignored_raises_iff fs path root (idx : index) e :
  isIgnored fs path root idx = Raise e <-> path = "" /\ e = ValueError.
Proof.
  rewrite isIgnored_run. split.
  - destruct (denylisted fs path); [done|].
    destruct (String.eqb_spec path ""); [|done]. by intros [= <-].
  - by intros [-> ->].
Qed.

Lemma normpath_nonempty (p : string) : posixpath.normpath p <> "".
Proof.
  unfold posixpath.normpath. destruct (String.eqb p ""); [done|].
  cbv zeta.
  match goal with
  | |- (if String.eqb ?x "" then _ else _) <> _ =>
      by destruct (String.eqb_spec x "")
  end.
Qed.

(** X2: on every path that [main] hands over, an [os.path.abspath]
    result, the call returns a boolean. *)
Theorem is_file_ignored_returns_on_abspath fs wd p root (idx : index) :
  exists b, isIgnored fs (posixpath.abspath wd p) root idx = Ok b.
Proof.
  rewrite isIgnored_run. destruct (denylisted fs _); [by eexists|].
  destruct (String.eqb_spec (posixpath.abspath wd p) "") as [E|_];
    [|by eexists].
  by apply normpath_nonempty in E.
Qed.

Lemma existsb_elem_ext {A} (f : A -> bool) (l1 l2 : list A) :
  (forall x, x ∈ l1 -> x ∈ l2) ->
  existsb f l1 = true -> existsb f l2 = true.
Proof.
  intros Hsub H. apply existsb_exists in H as (x & Hx & Hfx).
  apply existsb_exists. exists x. split; [|done].
  by apply list_elem_of_In, Hsub, list_elem_of_In.
Qed.

Lemma existsb_elem_eq {A} (f : A -> bool) (l1 l2 : list A) :
  (forall x, x ∈ l1 <-> x ∈ l2) -> existsb f l1 = existsb f l2.
Proof.
  intros H. destruct (existsb f l1) eqn:E1, (existsb f l2) eqn:E2; try done.
  - rewrite <- E2. symmetry. eapply existsb_elem_ext; [|exact E1].
    intros x. apply H.
  - rewrite <- E1. eapply existsb_elem_ext; [|exact E2]. intros x. apply H.
Qed.

Lemma elem_of_walk_rules_has_rule root path (idx : index) r :
  r ∈ walk_rules root path idx
  <-> fst r ∈ chain root path /\ has_rule idx (fst r) (snd r).
Proof. destruct r as [d pat]. apply elem_of_walk_rules. Qed.

(** X3: the verdict depends only on which patterns are stored under the
    directories of the chain: their order, their repetitions, and the
    rule files of every other directory play no part. *)
Theorem verdict_depends_on_rule_sets fs path root (idx1 idx2 : index) :
  (forall d pat, d ∈ chain root path ->
                 (has_rule idx1 d pat <-> has_rule idx2 d pat)) ->
  isIgnored fs path root idx1 = isIgnored fs path root idx2.
Proof.
  intros Hsame. rewrite !isIgnored_run.
  assert (forall r, r ∈ walk_rules root path idx1
                    <-> r ∈ walk_rules root path idx2) as Hrules.
  { intros r. rewrite !elem_of_walk_rules_has_rule.
    split; intros [Hc Hr]; (split; [done|]); by apply (Hsame _ _ Hc). }
  by rewrite (existsb_elem_eq _ _ _ Hrules),
             (existsb_elem_eq (hits_plain fs path) _ _ Hrules).
Qed.

Lemma verdict_depends_on_rule_sets_witness :
  isIgnored sample_fs "/proj/keep.log" "/proj"
    ({["/proj" := ["*.log"; "!keep.log"]]} : index)
  = isIgnored sample_fs "/proj/keep.log" "/proj"
      (<["/elsewhere" := ["keep.log"]]>
         {["/proj" := ["!keep.log"; "*.log"; "*.log"]]} : index).
Proof.
  apply (verdict_depends_on_rule_sets sample_fs "/proj/keep.log" "/proj").
  intros d pat Hd. vm_compute in Hd.
  apply list_elem_of_singleton in Hd as ->. unfold has_rule.
  rewrite lookup_insert_ne by discriminate. rewrite !lookup_singleton_eq.
  split; intros (pats & [= <-] & Hpat); eexists; (split; [done|]);
    repeat rewrite elem_of_cons in Hpat; rewrite elem_of_nil in Hpat;
    repeat rewrite elem_of_cons; tauto.
Defined.

(** X4: rules added to the rule files never turn the verdict against
    their kind: if every added pattern is a negation, a path that was not
    ignored stays not ignored; if every added pattern is plain, a path
    that was ignored stays ignored. *)
Theorem added_rules_monotone fs path root (idx1 idx2 : index) :
  (forall d pat, d ∈ chain root path ->
                 has_rule idx1 d pat -> has_rule idx2 d pat) ->
  ((forall d pat, d ∈ chain root path -> has_rule idx2 d pat ->
                  has_rule idx1 d pat \/ is_negation pat = true) ->
   isIgnored fs path root idx1 = Ok false ->
   isIgnored fs path root idx2 = Ok false)
  /\ ((forall d pat, d ∈ chain root path -> has_rule idx2 d pat ->
                     has_rule idx1 d pat \/ is_negation pat = false) ->
      isIgnored fs path root idx1 = Ok true ->
      isIgnored fs path root idx2 = Ok true).
Proof.
  intros Hgrow.
  assert (forall r, r ∈ walk_rules root path idx1 ->
                    r ∈ walk_rules root path idx2) as Hsub.
  { intros r. rewrite !elem_of_walk_rules_has_rule.
    intros [Hc Hr]. split; [done|]. by apply Hgrow. }
  rewrite !isIgnored_run.
  destruct (denylisted fs path); [by split|].
  destruct (String.eqb path ""); [by split|].
  set (rules1 := walk_rules root path idx1) in *.
  set (rules2 := walk_rules root path idx2) in *.
  split; intros Honly Hv; injection Hv as Hv; f_equal.
  - destruct (existsb (hits_negated fs path) rules2) eqn:Hn2; [done|].
    destruct (existsb (hits_plain fs path) rules2) eqn:Hp2; [|done].
    exfalso. apply existsb_exists in Hp2 as (r & Hr & Hhit).
    apply list_elem_of_In in Hr.
    assert (r ∈ rules1) as Hr1.
    { pose proof Hr as Hr'.
      apply elem_of_walk_rules_has_rule in Hr' as [Hc Hhas].
      destruct (Honly _ _ Hc Hhas) as [Hold|Hneg].
      - apply elem_of_walk_rules_has_rule. by split.
      - unfold hits_plain in Hhit. rewrite Hneg in Hhit.
        by rewrite andb_false_r in Hhit. }
    assert (existsb (hits_plain fs path) rules1 = true) as Hp1.
    { apply existsb_exists. exists r. by rewrite <- list_elem_of_In. }
    assert (existsb (hits_negated fs path) rules1 = false) as Hn1.
    { destruct (existsb (hits_negated fs path) rules1) eqn:E; [|done].
      by rewrite (existsb_elem_ext _ _ _ Hsub E) in Hn2. }
    by rewrite Hp1, Hn1 in Hv.
  - apply andb_true_iff in Hv as [Hn1 Hp1]. apply negb_true_iff in Hn1.
    rewrite (existsb_elem_ext _ _ _ Hsub Hp1), andb_true_r.
    apply negb_true_iff.
    destruct (existsb (hits_negated fs path) rules2) eqn:Hn2; [|done].
    apply existsb_exists in Hn2 as (r & Hr & Hhit).
    apply list_elem_of_In in Hr. pose proof Hr as Hr'.
    apply elem_of_walk_rules_has_rule in Hr' as [Hc Hhas].
    destruct (Honly _ _ Hc Hhas) as [Hold|Hplain].
    + assert (existsb (hits_negated fs path) rules1 = true) as E;
        [|by rewrite E in Hn1].
      apply existsb_exists. exists r. split; [|done].
      apply list_elem_of_In, elem_of_walk_rules_has_rule. by split.
    + unfold hits_negated in Hhit. rewrite Hplain in Hhit.
      by rewrite andb_false_r in Hhit.
Qed.

Lemma has_rule_singleton d rules d' pat :
  has_rule ({[d := rules]} : index) d' pat <-> d' = d /\ pat ∈ rules.
Proof.
  unfold has_rule. split.
  - intros (pats & Hlook & Hpat).
    by apply lookup_singleton_Some in Hlook as [<- <-].
  - intros [-> Hpat]. exists rules. by rewrite lookup_singleton_eq.
Qed.

Lemma added_rules_monotone_witness :
  isIgnored sample_fs "/proj/keep.log" "/proj"
            ({["/proj" := ["notes.*"; "!keep.log"]]} : index) = Ok false
  /\ isIgnored sample_fs "/proj/keep.log" "/proj"
               ({["/proj" := ["*.log"; "keep.*"]]} : index) = Ok true.
Proof.
  split.
  - apply (proj1 (added_rules_monotone sample_fs "/proj/keep.log" "/proj"
                    ({["/proj" := ["notes.*"]]} : index)
                    ({["/proj" := ["notes.*"; "!keep.log"]]} : index)
                    ltac:(intros d pat _; rewrite !has_rule_singleton,
                            !elem_of_cons; tauto))).
    + intros d pat _. rewrite !has_rule_singleton, !elem_of_cons, !elem_of_nil.
      intros [-> [->|[->|[]]]]; [left; split; [done|by left]|by right].
    + vm_compute. reflexivity.
  - apply (proj2 (added_rules_monotone sample_fs "/proj/keep.log" "/proj"
                    ({["/proj" := ["*.log"]]} : index)
                    ({["/proj" := ["*.log"; "keep.*"]]} : index)
                    ltac:(intros d pat _; rewrite !has_rule_singleton,
                            !elem_of_cons; tauto))).
    + intros d pat _. rewrite !has_rule_singleton, !elem_of_cons, !elem_of_nil.
      intros [-> [->|[->|[]]]]; [left; split; [done|by left]|by right].
    + vm_compute. reflexivity.
Defined.

Lemma join_app (a b : list string) :
  a <> [] -> b <> [] ->
  Str.join "/" (a ++ b) = Str.join "/" a +:+ "/" +:+ Str.join "/" b.
Proof.
  intros Ha Hb. induction a as [|x a IH]; [done|].
  destruct a as [|y a].
  - destruct b; done.
  - change (Str.join "/" ((x :: y :: a) ++ b))
      with (x +:+ "/" +:+ Str.join "/" ((y :: a) ++ b)).
    rewrite IH by done.
    change (Str.join "/" (x :: y :: a))
      with (x +:+ "/" +:+ Str.join "/" (y :: a)).
    by rewrite !sapp_assoc.
Qed.

Lemma abs_path_app (a b : list string) :
  a <> [] -> b <> [] ->
  abs_path (a ++ b) = abs_path a +:+ "/" +:+ Str.join "/" b.
Proof.
  intros Ha Hb. unfold abs_path. rewrite join_app by done.
  by rewrite !sapp_assoc.
Qed.

Lemma mem_true (x : string) (l : list string) : x ∈ l -> Str.mem x l = true.
Proof.
  intros Hx. unfold Str.mem. apply existsb_exists. exists x.
  split; [by apply list_elem_of_In|apply String.eqb_refl].
Qed.

Lemma index_app (x : string) (l r : list string) :
  x ∉ l -> Str.index x (l ++ x :: r) = length l.
Proof.
  induction l as [|y l IH]; intros Hx.
  - cbn. by rewrite String.eqb_refl.
  - apply not_elem_of_cons in Hx as [Hne Hx]. cbn.
    destruct (String.eqb_spec y x); [congruence|]. by rewrite IH.
Qed.

Lemma startswith_longer (s p : string) :
  String.length s < String.length p -> Str.startswith s p = false.
Proof.
  intros Hlen. destruct (Str.startswith s p) eqn:E; [|done].
  apply startswith_iff in E as [t ->]. rewrite sapp_length in Hlen. lia.
Qed.

Lemma good_name_git : good_name ".git".
Proof. by repeat split. Qed.

(** The parts of [in_git_dir] on a path whose first [.git] component
    follows the names [cs]. *)
Lemma git_dir_path_of (cs rest : list string) :
  Forall good_name cs -> Forall good_name rest -> ".git" ∉ cs ->
  let path_parts := Str.split posixpath.sep (abs_path (cs ++ ".git" :: rest)) in
  Str.mem ".git" path_parts = true
  /\ Str.join "/" (List.firstn (Str.index ".git" path_parts + 1) path_parts)
     = abs_path (cs ++ [".git"]).
Proof.
  intros Hcs Hrest Hgit. cbn zeta.
  rewrite split_abs_path.
  - split.
    + apply mem_true, list_elem_of_further, elem_of_app. right.
      apply list_elem_of_here.
    + assert (Str.index ".git" ("" :: cs ++ ".git" :: rest) = S (length cs))
        as ->.
      { apply (index_app ".git" ("" :: cs) rest), not_elem_of_cons.
        by split. }
      replace (S (length cs) + 1) with (S (S (length cs))) by lia.
      cbn [List.firstn].
      replace (cs ++ ".git" :: rest) with ((cs ++ [".git"]) ++ rest)
        by by rewrite <- List.app_assoc.
      rewrite firstn_app.
      replace (S (length cs)) with (length (cs ++ [".git"]))
        by (rewrite length_app; cbn; lia).
      rewrite firstn_all, Nat.sub_diag. cbn [List.firstn].
      rewrite List.app_nil_r. by destruct cs.
  - apply Forall_app. split; [done|]. apply Forall_cons. split; [|done].
    apply good_name_git.
  - by destruct cs.
Qed.

(** X5: a path below an existing [.git] directory is ignored whatever the
    rule files say. *)
Theorem inside_git_dir_ignored fs cs rest root (idx : index) :
  Forall good_name cs -> Forall good_name rest -> rest <> [] ->
  ".git" ∉ cs ->
  os.isdir fs (abs_path (cs ++ [".git"])) = true ->
  isIgnored fs (abs_path (cs ++ ".git" :: rest)) root idx = Ok true.
Proof.
  intros Hcs Hrest Hne Hgit Hdir. rewrite isIgnored_run.
  assert (denylisted fs (abs_path (cs ++ ".git" :: rest)) = true) as ->;
    [|done].
  unfold denylisted. apply orb_true_iff. right. unfold in_git_dir.
  destruct (git_dir_path_of cs rest Hcs Hrest Hgit) as [-> ->].
  rewrite Hdir. cbn [andb]. apply startswith_iff. exists (Str.join "/" rest).
  replace (cs ++ ".git" :: rest) with ((cs ++ [".git"]) ++ rest)
    by by rewrite <- List.app_assoc.
  rewrite abs_path_app; [|by destruct cs|done]. by rewrite !sapp_assoc.
Qed.

Lemma inside_git_dir_ignored_witness :
  isIgnored git_fs "/proj/.git/config" "/proj"
            ({["/proj" := ["!config"]]} : index) = Ok true.
Proof.
  apply (inside_git_dir_ignored git_fs ["proj"] ["config"]); try side.
  vm_compute. reflexivity.
Defined.

(** X6: the entry named [.git] itself is not on the deny list, directory
    or not: with no rule file it is not ignored. *)
Theorem git_entry_not_denylisted fs cs root :
  Forall good_name cs -> ".git" ∉ cs ->
  denylisted fs (abs_path (cs ++ [".git"])) = false
  /\ isIgnored fs (abs_path (cs ++ [".git"])) root (∅ : index) = Ok false.
Proof.
  intros Hcs Hgit.
  assert (denylisted fs (abs_path (cs ++ [".git"])) = false) as Hdeny.
  { unfold denylisted.
    rewrite basename_abs_path by apply good_name_git. cbn [orb Str.mem existsb].
    unfold in_git_dir.
    destruct (git_dir_path_of cs [] Hcs ltac:(constructor) Hgit) as [-> ->].
    rewrite startswith_longer; [apply andb_false_r|].
    rewrite sapp_length. cbn. lia. }
  split; [done|]. apply run_none; [done|done|].
  intros r Hr.
  apply elem_of_walk_rules_has_rule in Hr as (_ & pats & Hlook & _).
  by rewrite lookup_empty in Hlook.
Qed.

Lemma git_entry_not_denylisted_witness :
  denylisted git_fs "/proj/.git" = false
  /\ isIgnored git_fs "/proj/.git" "/proj" (∅ : index) = Ok false.
Proof. apply (git_entry_not_denylisted git_fs ["proj"]); side. Defined.

Lemma dirname_root : posixpath.dirname (abs_path []) = abs_path [].
Proof. reflexivity. Qed.

(** The directories the upward loop visits from [base ++ sub], when it can
    only stop at [base]. *)
Lemma ancestors_prefixes root base (sub : list string) :
  Forall good_name (base ++ sub) ->
  abs_path base = root \/ base = [] ->
  (forall k, 0 < k <= length sub -> abs_path (base ++ take k sub) <> root) ->
  forall fuel,
    String.length (abs_path (base ++ sub)) < fuel ->
    ancestors fuel root (abs_path (base ++ sub))
    = (fun k => abs_path (base ++ take k sub))
        <$> reverse (seq 0 (S (length sub))).
Proof.
  intros Hg Hbase. induction sub as [|x sub IH] using rev_ind;
    intros Hroot fuel Hfuel.
  - destruct fuel as [|fuel]; [lia|]. cbn [ancestors length seq reverse].
    cbn. rewrite List.app_nil_r.
    destruct Hbase as [->| ->].
    + by rewrite String.eqb_refl.
    + rewrite dirname_root, String.eqb_refl. by rewrite !orb_true_r.
  - destruct fuel as [|fuel]; [lia|]. cbn [ancestors].
    rewrite List.app_assoc in Hg, Hfuel |- *.
    apply Forall_app in Hg as [Hg Hx]. rewrite Forall_singleton in Hx.
    rewrite dirname_abs_path by done.
    pose proof (abs_path_snoc_longer (base ++ sub) x (proj1 Hx)) as Hlt.
    assert (abs_path ((base ++ sub) ++ [x]) <> root) as Hne.
    { specialize (Hroot (length (sub ++ [x]))).
      rewrite firstn_all, List.app_assoc in Hroot. apply Hroot.
      rewrite length_app. cbn. lia. }
    apply String.eqb_neq in Hne. rewrite Hne.
    assert (String.eqb (abs_path ((base ++ sub) ++ [x])) "" = false) as ->
      by done.
    assert (String.eqb (abs_path ((base ++ sub) ++ [x]))
                       (abs_path (base ++ sub)) = false) as ->.
    { apply String.eqb_neq. intros E. rewrite E in Hlt. lia. }
    cbn [orb]. rewrite IH; [|done| |lia].
    + rewrite length_app. cbn [length].
      replace (length sub + 1) with (S (length sub)) by lia.
      rewrite (seq_S (S (length sub)) 0), reverse_snoc. cbn [fmap list_fmap].
      rewrite Nat.add_0_l, take_ge by (rewrite length_app; cbn; lia).
      f_equal.
      * by rewrite List.app_assoc.
      * apply Forall_fmap_ext_1, Forall_forall. intros k Hk.
        apply elem_of_reverse, elem_of_seq in Hk.
        rewrite take_app_le by lia. done.
    + intros k Hk. specialize (Hroot k).
      rewrite take_app_le in Hroot by lia. apply Hroot.
      rewrite length_app. cbn. lia.
Qed.

(** X7: for a path below the root, both made of proper names, the walk
    visits exactly the directories from the parent of the path up to the
    root, deepest first: no directory above the root, and none beside the
    path. *)
Theorem chain_below_root rootc sub name :
  Forall good_name rootc -> Forall good_name sub -> good_name name ->
  chain (abs_path rootc) (abs_path (rootc ++ sub ++ [name]))
  = (fun k => abs_path (rootc ++ take k sub))
      <$> reverse (seq 0 (S (length sub))).
Proof.
  intros Hr Hs Hn. unfold chain. rewrite List.app_assoc.
  rewrite dirname_abs_path; [|by apply Forall_app|done].
  apply ancestors_prefixes; [by apply Forall_app|by left| |lia].
  intros k [Hk Hk'] E.
  destruct (take k sub) as [|y l] eqn:Htake.
  { destruct sub, k; cbn in Htake, Hk'; try done; lia. }
  assert (Forall good_name (y :: l)) as Hyl.
  { rewrite <- Htake. by apply Forall_take. }
  pose proof (abs_path_snoc_longer rootc y) as Hlt.
  pose proof (abs_path_app_longer (rootc ++ [y]) l) as Hle.
  rewrite <- List.app_assoc in Hle. cbn [app] in Hle. rewrite E in Hle.
  apply Forall_cons in Hyl as [Hy Hl]. specialize (Hlt (proj1 Hy)).
  specialize (Hle Hl). lia.
Qed.

Lemma chain_below_root_witness :
  chain "/proj" "/proj/a/b/x.txt" = ["/proj/a/b"; "/proj/a"; "/proj"].
Proof.
  apply (chain_below_root ["proj"] ["a"; "b"] "x.txt"); side.
Defined.

(** X8: for a path that does not lie below the root, the loop does not
    meet the root and climbs to ["/"]: the rule files of every ancestor
    directory of the path are in the walk. *)
Theorem chain_outside_root root cs name :
  Forall good_name cs -> good_name name ->
  (forall k, k <= length cs -> abs_path (take k cs) <> root) ->
  chain root (abs_path (cs ++ [name]))
  = (fun k => abs_path (take k cs)) <$> reverse (seq 0 (S (length cs))).
Proof.
  intros Hcs Hn Hout. unfold chain. rewrite dirname_abs_path by done.
  apply (ancestors_prefixes root [] cs); [done|by right| |cbn [app]; lia].
  intros k Hk. apply Hout. lia.
Qed.

Lemma chain_outside_root_witness :
  chain "/proj" "/other/a/x.txt" = ["/other/a"; "/other"; "/"].
Proof.
  apply (chain_outside_root "/proj" ["other"; "a"] "x.txt"); try side.
  intros k Hk. cbn in Hk.
  destruct k as [|[|[|k]]]; [discriminate..|lia].
Defined.

(** ** The loader *)

Lemma lstrip_shorter p s :
  String.length (Str.lstrip p s) <= String.length s.
Proof.
  induction s as [|a s IH]; [done|]. cbn [Str.lstrip].
  destruct (p a); cbn; lia.
Qed.

Lemma lstrip_fixed_head p a s :
  Str.lstrip p (String a s) = String a s -> p a = false.
Proof.
  cbn [Str.lstrip]. destruct (p a); [|done]. intros E.
  pose proof (lstrip_shorter p s) as H. rewrite E in H. cbn in H. lia.
Qed.

Lemma lstrip_idem p s : Str.lstrip p (Str.lstrip p s) = Str.lstrip p s.
Proof.
  induction s as [|a s IH]; [done|]. cbn [Str.lstrip].
  destruct (p a) eqn:E; [done|]. cbn [Str.lstrip]. by rewrite E.
Qed.

Lemma rstrip_idem p s : Str.rstrip p (Str.rstrip p s) = Str.rstrip p s.
Proof.
  induction s as [|a s IH]; [done|]. cbn [Str.rstrip].
  destruct (Str.rstrip p s) as [|b r] eqn:E.
  - destruct (p a) eqn:Ea; [done|]. cbn. by rewrite Ea.
  - cbn [Str.rstrip]. cbn [Str.rstrip] in IH.
    destruct (Str.rstrip p r) as [|c r'] eqn:Er.
    + destruct (p b) eqn:Eb; [done|]. by injection IH as <-.
    + by rewrite IH.
Qed.

Lemma lstrip_rstrip p s :
  Str.lstrip p s = s -> Str.lstrip p (Str.rstrip p s) = Str.rstrip p s.
Proof.
  destruct s as [|a s]; [done|]. intros E.
  apply lstrip_fixed_head in E. cbn [Str.rstrip].
  destruct (Str.rstrip p s); rewrite ?E; cbn [Str.lstrip]; by rewrite E.
Qed.

Lemma strip_idem s : Str.strip (Str.strip s) = Str.strip s.
Proof.
  unfold Str.strip.
  rewrite (lstrip_rstrip _ (Str.lstrip _ s)) by apply lstrip_idem.
  apply rstrip_idem.
Qed.

Lemma keep_line_Some line pat :
  keep_line line = Some pat ->
  pat = Str.strip line /\ pat <> "" /\ Str.startswith pat "#" = false.
Proof.
  unfold keep_line.
  destruct (String.eqb_spec (Str.strip line) "") as [|Hne]; [done|].
  destruct (Str.startswith (Str.strip line) "#") eqn:Hc; [done|].
  by intros [= <-].
Qed.


Lemma load_Ok_inv fs p pats :
  load_gitignore_patterns fs p = Ok pats ->
  pats = [] \/ exists ls, pats = omap keep_line ls.
Proof.
  unfold load_gitignore_patterns. destruct (os.isfile fs p); [|left; congruence].
  destruct (os.lookup fs p) as [[[ls|e]|]|]; intros [= <-]; eauto.
Qed.

(** X9: every pattern the loader returns is a non-empty line that is no
    comment and has no white space left at either end. *)
Theorem loaded_patterns_clean fs p pats pat :
  load_gitignore_patterns fs p = Ok pats ->
  pat ∈ pats ->
  pat <> "" /\ Str.startswith pat "#" = false /\ Str.strip pat = pat.
Proof.
  intros Hload Hpat.
  destruct (load_Ok_inv _ _ _ Hload) as [->|[ls ->]];
    [by apply elem_of_nil in Hpat|].
  apply list_elem_of_omap in Hpat as (line & _ & Hkeep).
  apply keep_line_Some in Hkeep as (-> & Hne & Hc).
  by rewrite strip_idem.
Qed.

Lemma loaded_patterns_clean_witness :
  "!keep.log" <> "" /\ Str.startswith "!keep.log" "#" = false
  /\ Str.strip "!keep.log" = "!keep.log".
Proof.
  apply (loaded_patterns_clean sample_fs "/proj/.gitignore"
           ["*.log"; "!keep.log"]).
  - vm_compute. reflexivity.
  - apply list_elem_of_further, list_elem_of_here.
Defined.




(** ** The index builder *)

(** An invariant of the dictionary kept by every visit carries over to the
    dictionary returned. *)
Lemma foldM_ind {A B} (f : A -> B -> outcome A) (P : A -> Prop) l :
  (forall a b a', b ∈ l -> P a -> f a b = Ok a' -> P a') ->
  forall a a', P a -> foldM f l a = Ok a' -> P a'.
Proof.
  induction l as [|b l IH]; intros Hstep a a' Ha.
  - by intros [= <-].
  - cbn [foldM]. destruct (f a b) as [a1| |] eqn:E; [|done|done]. cbn.
    apply IH.
    + intros a2 b2 a2' Hb2. apply Hstep. by apply list_elem_of_further.
    + eapply Hstep; [apply list_elem_of_here|exact Ha|exact E].
Qed.

Lemma visit_root_loaded fs st root st' :
  loaded_from fs (fst st) -> visit_root fs st root = Ok st' ->
  loaded_from fs (fst st').
Proof.
  destruct st as [pbd found]. unfold visit_root. cbn [fst]. intros Hst.
  destruct (os.isfile fs _) eqn:Hfile; cbn [andb];
    [|by intros [= <-]].
  destruct (negb _); [|by intros [= <-]].
  destruct (load_gitignore_patterns fs _) as [pats| |] eqn:Hload;
    [|done|done].
  cbn. intros [= <-] d pats'. cbn [fst].
  destruct (decide (root = d)) as [<-|Hne].
  - rewrite lookup_insert_eq. by intros [= <-].
  - rewrite lookup_insert_ne by done. apply Hst.
Qed.

Lemma collect_inv fs start_paths root (idx : index) :
  collect_gitignore_patterns fs start_paths root = Ok idx ->
  exists pbd0 found0 found,
    (if os.isfile fs (posixpath.join root ".gitignore")
     then exists pats,
         load_gitignore_patterns fs (posixpath.join root ".gitignore")
         = Ok pats
         /\ pbd0 = {[root := pats]}
         /\ found0 = {[posixpath.join root ".gitignore"]}
     else pbd0 = ∅ /\ found0 = ∅)
    /\ foldM (fun st top => foldM (visit_root fs) (os.walk fs top) st)
             (dirs_to_scan fs start_paths) (pbd0, found0)
       = Ok (idx, found).
Proof.
  unfold collect_gitignore_patterns.
  destruct (os.isfile fs (posixpath.join root ".gitignore")).
  - destruct (load_gitignore_patterns fs _) as [pats| |]; [|done|done].
    cbn [mbind outcome_bind mret outcome_ret].
    destruct (foldM _ _ _) as [[idx' found]| |] eqn:E; [|done|done].
    cbn. intros [= <-]. eauto 10.
  - cbn [mbind outcome_bind mret outcome_ret].
    destruct (foldM _ _ _) as [[idx' found]| |] eqn:E; [|done|done].
    cbn. intros [= <-]. eauto 10.
Qed.

(** X11: every key of the returned dictionary is a directory whose
    [.gitignore] is a regular file, and the value stored under it is what
    the loader returns for that file. *)
Theorem collected_patterns_loaded fs start_paths root (idx : index) d pats :
  collect_gitignore_patterns fs start_paths root = Ok idx ->
  idx !! d = Some pats ->
  os.isfile fs (posixpath.join d ".gitignore") = true
  /\ load_gitignore_patterns fs (posixpath.join d ".gitignore") = Ok pats.
Proof.
  intros Hc. apply collect_inv in Hc as (pbd0 & found0 & found & H0 & Hfold).
  revert d pats. change (loaded_from fs (fst (idx, found))).
  eapply (foldM_ind _ (fun st => loaded_from fs (fst st))); [| |exact Hfold].
  - intros st top st' _ Hst Hwalk.
    eapply (foldM_ind _ (fun st => loaded_from fs (fst st)));
      [| exact Hst | exact Hwalk].
    intros st1 r st1' _. apply visit_root_loaded.
  - cbn [fst]. intros d pats.
    destruct (os.isfile fs (posixpath.join root ".gitignore")) eqn:Hfile.
    + destruct H0 as (pats0 & Hload & -> & _).
      intros Hl. by apply lookup_singleton_Some in Hl as [<- <-].
    + destruct H0 as [-> _]. by rewrite lookup_empty.
Qed.

Lemma collected_patterns_loaded_witness :
  os.isfile sample_fs (posixpath.join "/proj/sub" ".gitignore") = true
  /\ load_gitignore_patterns sample_fs (posixpath.join "/proj/sub" ".gitignore")
     = Ok ["x/"].
Proof.
  apply (collected_patterns_loaded sample_fs ["/proj"] "/proj"
           (<["/proj/sub" := ["x/"]]> {["/proj" := ["*.log"; "!keep.log"]]})).
  - vm_compute. reflexivity.
  - vm_compute. reflexivity.
Defined.

Lemma readable_dir (es : list (string * node)) :
  readable_node (Dir es) <-> Forall (fun e => readable_node (snd e)) es.
Proof.
  cbn [readable_node]. induction es as [|[name n'] es IH].
  - split; [constructor|done].
  - rewrite Forall_cons, <- IH. cbn [snd]. tauto.
Qed.

Lemma resolve_readable comps : forall n n',
  readable_node n -> os.resolve n comps = Some n' -> readable_node n'.
Proof.
  induction comps as [|c comps IH]; intros n n' Hr Hres.
  - by injection Hres as <-.
  - destruct n as [?|es]; [done|]. cbn [os.resolve] in Hres.
    destruct (os.find_entry c es) as [n1|] eqn:Hfind; [|done].
    apply (IH n1 n'); [|done].
    destruct (find_entry_elem _ _ _ Hfind) as [name' He].
    apply readable_dir in Hr. rewrite Forall_forall in Hr.
    apply (Hr _ He).
Qed.

Lemma load_readable fs p :
  readable_node (tree fs) ->
  exists pats, load_gitignore_patterns fs p = Ok pats.
Proof.
  intros Hr. unfold load_gitignore_patterns.
  destruct (os.isfile fs p); [|by eexists].
  destruct (os.lookup fs p) as [[[ls|e]|]|] eqn:Hl; try by eexists.
  unfold os.lookup in Hl. destruct (String.eqb p ""); [done|].
  by apply (resolve_readable _ _ _ Hr) in Hl.
Qed.

Lemma foldM_total {A B} (f : A -> B -> outcome A) l :
  (forall a b, exists a', f a b = Ok a') ->
  forall a, exists a', foldM f l a = Ok a'.
Proof.
  intros Hf. induction l as [|b l IH]; intros a; [by eexists|].
  cbn [foldM]. destruct (Hf a b) as [a1 ->]. apply IH.
Qed.

(** X12: on a tree without unreadable files [collect_gitignore_patterns]
    returns a dictionary: it does not raise. *)
Theorem collect_returns_on_readable fs start_paths root :
  readable_node (tree fs) ->
  exists idx, collect_gitignore_patterns fs start_paths root = Ok idx.
Proof.
  intros Hr. unfold collect_gitignore_patterns.
  set (found := if os.isfile fs _ then _ else _). clearbody found.
  assert (exists pbd0,
            (if os.isfile fs (posixpath.join root ".gitignore")
             then patterns ← load_gitignore_patterns fs
                               (posixpath.join root ".gitignore");
                  mret ({[root := patterns]} : index)
             else mret (∅ : index)) = Ok pbd0) as [pbd0 ->].
  { destruct (os.isfile fs _); [|by eexists].
    destruct (load_readable fs (posixpath.join root ".gitignore") Hr)
      as [pats ->]. by eexists. }
  cbn [mbind outcome_bind].
  destruct (foldM_total
              (fun st top => foldM (visit_root fs) (os.walk fs top) st)
              (dirs_to_scan fs start_paths)) with (a := (pbd0, found))
    as [st ->]; [|by eexists].
  intros st top. apply foldM_total. intros [pbd fnd] r. unfold visit_root.
  destruct (os.isfile fs _ && negb _); [|by eexists].
  destruct (load_readable fs (posixpath.join r ".gitignore") Hr) as [pats ->].
  by eexists.
Qed.

Lemma collect_returns_on_readable_witness :
  exists idx, collect_gitignore_patterns sample_fs ["/proj"; "/other"] "/proj"
              = Ok idx.
Proof.
  apply (collect_returns_on_readable sample_fs). cbn. tauto.
Defined.

Lemma grows_refl st : grows st st.
Proof. by split. Qed.

Lemma grows_trans st1 st2 st3 : grows st1 st2 -> grows st2 st3 -> grows st1 st3.
Proof. intros [H1 H2] [H3 H4]. split; eauto. Qed.

Lemma visit_root_complete fs st r st' :
  found_are_keys st -> visit_root fs st r = Ok st' ->
  found_are_keys st' /\ grows st st'
  /\ (os.isfile fs (posixpath.join r ".gitignore") = true ->
      posixpath.join r ".gitignore" ∈ snd st').
Proof.
  destruct st as [pbd found]. unfold visit_root. intros Hst.
  destruct (os.isfile fs _) eqn:Hfile; cbn [andb];
    [|intros [= <-]; split; [done|split; [apply grows_refl|done]]].
  case_bool_decide as Hin; cbn [negb];
    [intros [= <-]; split; [done|split; [apply grows_refl|done]]|].
  destruct (load_gitignore_patterns fs _) as [pats| |]; [|done|done].
  cbn. intros [= <-]. split; [|split].
  - intros g. cbn [fst snd]. rewrite elem_of_union, elem_of_singleton.
    intros [->|Hg].
    + exists r. by rewrite lookup_insert_eq.
    + destruct (Hst g Hg) as (d & Hd & Hj). exists d. split; [|done].
      cbn [fst] in Hd. destruct (decide (r = d)) as [<-|Hne].
      * by rewrite lookup_insert_eq.
      * by rewrite lookup_insert_ne.
  - split; cbn [fst snd].
    + intros d Hd. destruct (decide (r = d)) as [<-|Hne].
      * by rewrite lookup_insert_eq.
      * by rewrite lookup_insert_ne.
    + intros g Hg. apply elem_of_union. by right.
  - intros _. cbn [snd]. apply elem_of_union. left. by apply elem_of_singleton.
Qed.

Lemma foldM_visit_complete fs roots : forall st st',
  found_are_keys st -> foldM (visit_root fs) roots st = Ok st' ->
  found_are_keys st' /\ grows st st'
  /\ (forall r, r ∈ roots ->
        os.isfile fs (posixpath.join r ".gitignore") = true ->
        posixpath.join r ".gitignore" ∈ snd st').
Proof.
  induction roots as [|r roots IH]; intros st st' Hst.
  - intros [= <-]. split; [done|]. split; [apply grows_refl|].
    intros r Hr. by apply elem_of_nil in Hr.
  - cbn [foldM]. destruct (visit_root fs st r) as [st1| |] eqn:Hv; [|done|done].
    cbn. intros Hfold.
    destruct (visit_root_complete _ _ _ _ Hst Hv) as (Hk1 & Hg1 & Hr1).
    destruct (IH _ _ Hk1 Hfold) as (Hk' & Hg' & Hr').
    split; [done|]. split; [by eapply grows_trans|].
    intros r' Hin Hfile. apply elem_of_cons in Hin as [->|Hin].
    + by apply Hg', Hr1.
    + by apply Hr'.
Qed.

Lemma foldM_walk_complete fs dirs : forall st st',
  found_are_keys st ->
  foldM (fun st top => foldM (visit_root fs) (os.walk fs top) st) dirs st
  = Ok st' ->
  found_are_keys st' /\ grows st st'
  /\ (forall top r, top ∈ dirs -> r ∈ os.walk fs top ->
        os.isfile fs (posixpath.join r ".gitignore") = true ->
        posixpath.join r ".gitignore" ∈ snd st').
Proof.
  induction dirs as [|top dirs IH]; intros st st' Hst.
  - intros [= <-]. split; [done|]. split; [apply grows_refl|].
    intros top r Hr. by apply elem_of_nil in Hr.
  - cbn [foldM].
    destruct (foldM (visit_root fs) (os.walk fs top) st) as [st1| |] eqn:Hv;
      [|done|done].
    cbn. intros Hfold.
    destruct (foldM_visit_complete _ _ _ _ Hst Hv) as (Hk1 & Hg1 & Hr1).
    destruct (IH _ _ Hk1 Hfold) as (Hk' & Hg' & Hr').
    split; [done|]. split; [by eapply grows_trans|].
    intros top' r Hin Hr Hfile. apply elem_of_cons in Hin as [->|Hin].
    + by apply Hg', Hr1.
    + by eapply Hr'.
Qed.

(** X13: no rule file of the walked trees is missed.  When the project
    root has a rule file the root is a key, and every directory that
    [os.walk] yields below a scanned directory and that has a rule file
    is a key, or shares its rule-file path with a key. *)
Theorem collected_rule_files_complete fs start_paths root (idx : index) :
  collect_gitignore_patterns fs start_paths root = Ok idx ->
  (os.isfile fs (posixpath.join root ".gitignore") = true ->
   is_Some (idx !! root))
  /\ (forall top r,
        top ∈ dirs_to_scan fs start_paths -> r ∈ os.walk fs top ->
        os.isfile fs (posixpath.join r ".gitignore") = true ->
        exists d, is_Some (idx !! d)
                  /\ posixpath.join d ".gitignore"
                     = posixpath.join r ".gitignore").
Proof.
  intros Hc. apply collect_inv in Hc as (pbd0 & found0 & found & H0 & Hfold).
  assert (found_are_keys (pbd0, found0)) as Hst.
  { intros g. cbn [fst snd].
    destruct (os.isfile fs (posixpath.join root ".gitignore")).
    - destruct H0 as (pats & _ & -> & ->). intros Hg.
      apply elem_of_singleton in Hg as ->. exists root.
      by rewrite lookup_singleton_eq.
    - destruct H0 as [_ ->]. intros Hg. by apply elem_of_empty in Hg. }
  destruct (foldM_walk_complete _ _ _ _ Hst Hfold) as (Hk & [Hg _] & Hr).
  split.
  - intros Hfile. apply Hg. cbn [fst]. rewrite Hfile in H0.
    destruct H0 as (pats & _ & -> & _). by rewrite lookup_singleton_eq.
  - intros top r Htop Hwalk Hfile. apply (Hk _ (Hr _ _ Htop Hwalk Hfile)).
Qed.

Lemma collected_rule_files_complete_witness :
  is_Some ((<["/proj/sub" := ["x/"]]> {["/proj" := ["*.log"; "!keep.log"]]}
            : index) !! "/proj").
Proof.
  apply (proj1 (collected_rule_files_complete sample_fs ["/proj"] "/proj" _
                  ltac:(vm_compute; reflexivity))).
  vm_compute. reflexivity.
Defined.

(** ** Extensions and language tags *)

Lemma take_drop (n : nat) (s : string) : Str.take n s +:+ Str.drop n s = s.
Proof.
  revert s. induction n as [|n IH]; intros [|a s]; try done.
  cbn [Str.take Str.drop]. by rewrite sapp_cons, IH.
Qed.

Lemma rfind_None (c : ascii) (s : string) :
  Str.rfind c s = None <-> Str.contains c s = false.
Proof.
  induction s as [|a s IH]; [done|]. cbn [Str.rfind Str.contains].
  destruct (Str.rfind c s) as [i|].
  - split; [done|]. intros H. apply orb_false_elim in H as [_ H].
    by apply IH in H.
  - destruct IH as [IH _]. rewrite IH by done. rewrite orb_false_r.
    by destruct (Ascii.eqb a c).
Qed.

(** The text from the last occurrence of [c] on. *)
Lemma rfind_Some (c : ascii) (s : string) (i : nat) :
  Str.rfind c s = Some i ->
  exists t, Str.drop i s = String c t /\ Str.contains c t = false
            /\ i < String.length s.
Proof.
  revert i. induction s as [|a s IH]; intros i; [done|]. cbn [Str.rfind].
  destruct (Str.rfind c s) as [j|] eqn:E.
  - intros [= <-]. destruct (IH j eq_refl) as (t & Ht & Hc & Hlt).
    exists t. cbn. split; [done|]. split; [done|lia].
  - destruct (Ascii.eqb_spec a c) as [->|]; [|done]. intros [= <-].
    exists s. cbn. split; [done|]. split; [by apply rfind_None|lia].
Qed.

Lemma contains_drop (c : ascii) (n : nat) (s : string) :
  Str.rfind_succ c s <= n -> Str.contains c (Str.drop n s) = false.
Proof.
  revert s. induction n as [|n IH]; intros s.
  - unfold Str.rfind_succ. destruct (Str.rfind c s) eqn:E; [lia|].
    intros _. destruct s; by apply rfind_None.
  - destruct s as [|a s]; [done|]. unfold Str.rfind_succ in *.
    cbn [Str.rfind Str.drop]. intros H. apply IH.
    destruct (Str.rfind c s); [lia|apply Nat.le_0_l].
Qed.

(** X14: [os.path.splitext] cuts the path in two: the parts put together
    give the path back, and the extension is empty or is a dot followed
    by characters that are neither dots nor separators. *)
Theorem splitext_parts (p : string) :
  fst (splitext p) +:+ snd (splitext p) = p
  /\ (snd (splitext p) = ""
      \/ exists t, snd (splitext p) = String "." t
                   /\ Str.contains "." t = false
                   /\ Str.contains "/" t = false).
Proof.
  unfold splitext.
  destruct (Nat.ltb_spec (Str.rfind_succ posixpath.sep p)
                         (Str.rfind_succ "." p)) as [Hlt|_];
    [|split; [apply sapp_nil_r|by left]].
  destruct (negb (Str.all_char "." _));
    [|split; [apply sapp_nil_r|by left]].
  cbn [fst snd]. split; [apply take_drop|]. right.
  destruct (Str.rfind "." p) as [i|] eqn:Hdot.
  2: { unfold Str.rfind_succ in Hlt at 2. rewrite Hdot in Hlt. lia. }
  assert (Str.rfind_succ "." p = S i) as Hs.
  { unfold Str.rfind_succ. by rewrite Hdot. }
  rewrite Hs in *. replace (S i - 1) with i by lia.
  destruct (rfind_Some _ _ _ Hdot) as (t & Ht & Hc & _).
  exists t. split; [done|]. split; [done|].
  assert (Str.contains "/" (Str.drop i p) = false) as Hsep.
  { apply (contains_drop posixpath.sep). lia. }
  rewrite Ht in Hsep. cbn [Str.contains] in Hsep.
  by apply orb_false_elim in Hsep as [_ Hsep].
Qed.

Lemma rfind_app (c : ascii) (a b : string) :
  Str.rfind c (a +:+ b)
  = match Str.rfind c b with
    | Some i => Some (String.length a + i)
    | None => Str.rfind c a
    end.
Proof.
  induction a as [|x a IH].
  - rewrite sapp_nil_l. by destruct (Str.rfind c b).
  - rewrite sapp_cons. cbn [Str.rfind]. rewrite IH.
    by destruct (Str.rfind c b).
Qed.

Lemma rfind_succ_le (c : ascii) (s : string) :
  Str.rfind_succ c s <= String.length s.
Proof.
  unfold Str.rfind_succ. destruct (Str.rfind c s) as [i|] eqn:E; [|lia].
  destruct (rfind_Some _ _ _ E) as (_ & _ & _ & H). lia.
Qed.

Lemma drop_app_plus (n : nat) (a b : string) :
  Str.drop (String.length a + n) (a +:+ b) = Str.drop n b.
Proof. induction a as [|x a IH]; [done|]. by rewrite sapp_cons. Qed.

Lemma take_app_le_str (n : nat) (a b : string) :
  n <= String.length a -> Str.take n (a +:+ b) = Str.take n a.
Proof.
  revert a. induction n as [|n IH]; intros a Hn.
  - by destruct a, b.
  - destruct a as [|x a]; [cbn in Hn; lia|]. rewrite sapp_cons.
    cbn [Str.take]. rewrite IH; [done|cbn in Hn; lia].
Qed.

(** [splitext] on a path whose last component is [name]. *)
Lemma splitext_last_component (dir name : string) :
  Str.contains posixpath.sep name = false ->
  snd (splitext (dir +:+ "/" +:+ name)) = snd (splitext name).
Proof.
  intros Hsep. unfold splitext, Str.rfind_succ.
  rewrite rfind_app_sep by done. rewrite (rfind_no_sep name) by done.
  rewrite <- sapp_assoc. set (q := dir +:+ "/").
  assert (S (String.length dir) = String.length q) as ->.
  { unfold q. rewrite sapp_length. cbn. lia. }
  rewrite rfind_app.
  destruct (Str.rfind "." name) as [i|] eqn:Hdot.
  - destruct (Nat.ltb_spec (String.length q) (S (String.length q + i)));
      [|lia].
    cbn [Nat.ltb Nat.leb].
    replace (S (String.length q + i) - 1) with (String.length q + i) by lia.
    replace (String.length q + i - String.length q) with i by lia.
    replace (S i - 1 - 0) with i by lia. replace (S i - 1) with i by lia.
    rewrite drop_app, drop_app_plus.
    change (Str.drop 0 name) with name.
    by destruct (negb (Str.all_char "." (Str.take i name))).
  - pose proof (rfind_succ_le "." q) as Hle. unfold Str.rfind_succ in Hle.
    destruct (Nat.ltb_spec (String.length q)
                (match Str.rfind "." q with Some i => S i | None => 0 end));
      [lia|done].
Qed.

(** X15: the language tag and the binary test look at the last component
    of the path only. *)
Theorem extension_of_last_component (dir name : string) :
  Str.contains posixpath.sep name = false ->
  get_language_from_extension (dir +:+ "/" +:+ name)
  = get_language_from_extension name
  /\ has_binary_extension (dir +:+ "/" +:+ name) = has_binary_extension name.
Proof.
  intros Hsep. unfold get_language_from_extension, has_binary_extension.
  by rewrite splitext_last_component.
Qed.

Lemma extension_of_last_component_witness :
  get_language_from_extension ("/a.b/c" +:+ "/" +:+ "x.py")
  = get_language_from_extension "x.py"
  /\ has_binary_extension ("/a.b/c" +:+ "/" +:+ "x.py")
     = has_binary_extension "x.py".
Proof. apply (extension_of_last_component "/a.b/c" "x.py"). reflexivity. Defined.

Lemma char_lower_idem (c : ascii) : char_lower (char_lower c) = char_lower c.
Proof. destruct c as [[] [] [] [] [] [] [] []]; reflexivity. Qed.

Lemma char_lower_dot (c : ascii) :
  Ascii.eqb (char_lower c) "." = Ascii.eqb c ".".
Proof. destruct c as [[] [] [] [] [] [] [] []]; reflexivity. Qed.

Lemma char_lower_sep (c : ascii) :
  Ascii.eqb (char_lower c) posixpath.sep = Ascii.eqb c posixpath.sep.
Proof. destruct c as [[] [] [] [] [] [] [] []]; reflexivity. Qed.

Lemma lower_idem (s : string) : lower (lower s) = lower s.
Proof.
  induction s as [|a s IH]; [done|]. cbn [lower].
  by rewrite char_lower_idem, IH.
Qed.

Lemma lower_take (n : nat) (s : string) :
  Str.take n (lower s) = lower (Str.take n s).
Proof.
  revert s. induction n as [|n IH]; intros [|a s]; try done.
  cbn [lower Str.take]. by rewrite IH.
Qed.

Lemma lower_drop (n : nat) (s : string) :
  Str.drop n (lower s) = lower (Str.drop n s).
Proof.
  revert s. induction n as [|n IH]; intros [|a s]; try done.
  cbn [lower Str.drop]. by rewrite IH.
Qed.

Lemma lower_rfind (c : ascii) (s : string) :
  (forall a, Ascii.eqb (char_lower a) c = Ascii.eqb a c) ->
  Str.rfind c (lower s) = Str.rfind c s.
Proof.
  intros Hc. induction s as [|a s IH]; [done|].
  cbn [lower Str.rfind]. by rewrite IH, Hc.
Qed.

Lemma lower_all_dots (s : string) :
  Str.all_char "." (lower s) = Str.all_char "." s.
Proof.
  induction s as [|a s IH]; [done|].
  cbn [lower Str.all_char]. by rewrite IH, char_lower_dot.
Qed.

Lemma splitext_lower (p : string) :
  splitext (lower p) = (lower (fst (splitext p)), lower (snd (splitext p))).
Proof.
  unfold splitext, Str.rfind_succ.
  rewrite (lower_rfind "." p char_lower_dot),
          (lower_rfind posixpath.sep p char_lower_sep).
  destruct (_ <? _); [|done].
  rewrite lower_drop, !lower_take, lower_drop, lower_all_dots.
  by destruct (negb _).
Qed.

(** X16: the language tag and the binary test do not depend on the case
    of the letters of the path. *)
Theorem extension_case_insensitive (p : string) :
  get_language_from_extension (lower p) = get_language_from_extension p
  /\ has_binary_extension (lower p) = has_binary_extension p.
Proof.
  unfold get_language_from_extension, has_binary_extension.
  rewrite splitext_lower. cbn [snd]. by rewrite lower_idem.
Qed.

Lemma rfind_all_char (c : ascii) (s : string) :
  Str.all_char c s = true -> s <> "" ->
  Str.rfind c s = Some (String.length s - 1).
Proof.
  induction s as [|a s IH]; [done|]. cbn [Str.all_char Str.rfind].
  intros H _. apply andb_true_iff in H as [Ha Hs].
  destruct s as [|b s].
  - cbn. by rewrite Ha.
  - rewrite IH by done. cbn. by rewrite Nat.sub_0_r.
Qed.

Lemma all_char_take (c : ascii) (n : nat) (s : string) :
  Str.all_char c s = true -> Str.all_char c (Str.take n s) = true.
Proof.
  revert s. induction n as [|n IH]; intros [|a s]; try done.
  cbn [Str.all_char Str.take]. intros H.
  apply andb_true_iff in H as [-> Hs]. by apply IH.
Qed.

(** A name made of dots followed by a dotless rest has no extension. *)
Lemma splitext_dotfile (dots rest : string) :
  Str.all_char "." dots = true ->
  Str.contains "." rest = false ->
  Str.contains posixpath.sep rest = false ->
  snd (splitext (dots +:+ rest)) = "".
Proof.
  intros Hdots Hrest Hsep. unfold splitext, Str.rfind_succ.
  rewrite !rfind_app. apply rfind_None in Hrest, Hsep. rewrite Hrest, Hsep.
  assert (Str.rfind posixpath.sep dots = None) as ->.
  { apply rfind_None. clear -Hdots. induction dots as [|a d IH]; [done|].
    cbn in *. apply andb_true_iff in Hdots as [Ha Hd].
    apply Ascii.eqb_eq in Ha as ->. by rewrite IH. }
  destruct dots as [|a d]; [done|].
  rewrite rfind_all_char by done.
  cbn [Nat.ltb Nat.leb]. rewrite Nat.sub_0_r.
  rewrite take_app_le_str by (cbn; lia).
  change (Str.drop 0 (String a d +:+ rest)) with (String a d +:+ rest).
  rewrite take_app_le_str by (cbn; lia).
  by rewrite all_char_take.
Qed.

(** X17: a file whose name is made of leading dots and a dotless rest,
    like [.gitignore] or [.lock], has no extension: it gets no language
    tag and is never taken for a binary file. *)
Theorem dotfile_has_no_extension (dir dots rest : string) :
  Str.all_char "." dots = true ->
  Str.contains "." rest = false ->
  Str.contains posixpath.sep rest = false ->
  get_language_from_extension (dir +:+ "/" +:+ dots +:+ rest) = ""
  /\ has_binary_extension (dir +:+ "/" +:+ dots +:+ rest) = false.
Proof.
  intros Hdots Hrest Hsep.
  assert (Str.contains posixpath.sep (dots +:+ rest) = false) as Hname.
  { clear Hrest. induction dots as [|a d IH]; [done|].
    cbn in Hdots. apply andb_true_iff in Hdots as [Ha Hd].
    apply Ascii.eqb_eq in Ha as ->. rewrite sapp_cons. cbn. by apply IH. }
  unfold get_language_from_extension, has_binary_extension.
  rewrite splitext_last_component, splitext_dotfile by done. by split.
Qed.

Lemma dotfile_has_no_extension_witness :
  get_language_from_extension ("/proj" +:+ "/" +:+ "." +:+ "lock") = ""
  /\ has_binary_extension ("/proj" +:+ "/" +:+ "." +:+ "lock") = false.
Proof. apply (dotfile_has_no_extension "/proj" "." "lock"); reflexivity. Defined.

(** ** Patterns without wildcards, and the star *)

Lemma tokens_literal (a b : string) :
  literal a = true ->
  fnmatch.tokens None (a +:+ b)
  = map fnmatch.Lit (String.list_ascii_of_string a) ++ fnmatch.tokens None b.
Proof.
  induction a as [|c a IH]; [done|]. cbn [literal].
  rewrite !andb_true_iff, !negb_true_iff. intros [[[H1 H2] H3] Ha].
  rewrite sapp_cons. cbn [fnmatch.tokens String.list_ascii_of_string map app].
  by rewrite H1, H2, H3, IH.
Qed.

Lemma literal_app (a b : string) :
  literal (a +:+ b) = literal a && literal b.
Proof.
  induction a as [|c a IH]; [done|]. rewrite sapp_cons. cbn [literal].
  rewrite IH. by rewrite !andb_assoc.
Qed.

Lemma glob_literal_prefix (a : string) ts (s : string) :
  fnmatch.glob (map fnmatch.Lit (String.list_ascii_of_string a) ++ ts) s = true
  <-> exists t, s = a +:+ t /\ fnmatch.glob ts t = true.
Proof.
  revert s. induction a as [|c a IH]; intros s.
  - cbn [String.list_ascii_of_string map app]. split; [by exists s|].
    by intros (t & -> & H).
  - cbn [String.list_ascii_of_string map app fnmatch.glob].
    destruct s as [|x s].
    + split; [done|]. intros (t & Ht & _). by rewrite sapp_cons in Ht.
    + cbn [fnmatch.token_accepts]. rewrite andb_true_iff, IH. split.
      * intros [Hc (t & -> & Ht)]. apply Ascii.eqb_eq in Hc as ->.
        by exists t.
      * intros (t & Ht & Hg). rewrite sapp_cons in Ht. injection Ht as -> ->.
        split; [apply Ascii.eqb_refl|by exists t].
Qed.

Lemma glob_nil (s : string) : fnmatch.glob [] s = true <-> s = "".
Proof. cbn. apply String.eqb_eq. Qed.

Lemma glob_star ts (m t : string) :
  fnmatch.glob ts t = true -> fnmatch.glob (fnmatch.Star :: ts) (m +:+ t) = true.
Proof.
  intros Ht. induction m as [|c m IH].
  - rewrite sapp_nil_l. destruct t; cbn [fnmatch.glob]; by rewrite Ht.
  - rewrite sapp_cons. cbn [fnmatch.glob] in *. rewrite IH.
    apply orb_true_r.
Qed.

Lemma fnmatch_literal (name pat : string) :
  literal pat = true -> fnmatch.fnmatch name pat = true <-> name = pat.
Proof.
  intros Hlit. unfold fnmatch.fnmatch, fnmatch.translate.
  rewrite <- (sapp_nil_r pat) at 1. rewrite tokens_literal by done.
  cbn [fnmatch.tokens]. rewrite glob_literal_prefix. split.
  - intros (t & -> & Ht). apply glob_nil in Ht as ->. apply sapp_nil_r.
  - intros ->. exists "". by rewrite sapp_nil_r.
Qed.

Lemma fnmatch_literal_star (name pat : string) :
  literal pat = true ->
  fnmatch.fnmatch name (pat +:+ "*") = true <-> Str.startswith name pat = true.
Proof.
  intros Hlit. unfold fnmatch.fnmatch, fnmatch.translate.
  rewrite tokens_literal by done.
  change (fnmatch.tokens None "*") with [fnmatch.Star].
  rewrite glob_literal_prefix, startswith_iff. split.
  - intros (t & -> & _). by exists t.
  - intros [t ->]. exists t. split; [done|].
    rewrite <- (sapp_nil_r t). by apply glob_star.
Qed.

Lemma pattern_matches_plain_name (rel pattern : string) :
  literal pattern = true ->
  Str.contains "/" pattern = false ->
  pattern_matches rel pattern = true
  <-> posixpath.basename rel = pattern
      \/ Str.startswith rel (pattern +:+ "/") = true.
Proof.
  intros Hlit Hsep. unfold pattern_matches.
  assert (Str.endswith pattern "/" = false) as ->
    by by apply endswith_no_sep.
  rewrite Hsep. cbn [negb].
  rewrite !orb_true_iff, !fnmatch_literal by done.
  replace (pattern +:+ "/*") with ((pattern +:+ "/") +:+ "*")
    by by rewrite sapp_assoc.
  rewrite fnmatch_literal_star by (by rewrite literal_app, Hlit).
  split; [|tauto].
  intros [H|[H|H]]; [tauto|tauto|].
  apply fnmatch_literal in H as ->; [|done]. left. by apply basename_no_sep.
Qed.

(** X18: a rule that is a plain name, without wildcard and without
    separator, matches a path exactly when the last segment of the path is
    that name or the path starts with that name as a directory of the rule
    file's directory. *)
Theorem plain_name_rule (rel pattern : string) :
  literal pattern = true ->
  Str.contains "/" pattern = false ->
  pattern_matches rel pattern = true
  <-> posixpath.basename rel = pattern
      \/ Str.startswith rel (pattern +:+ "/") = true.
Proof. apply pattern_matches_plain_name. Qed.

Lemma plain_name_rule_witness :
  pattern_matches "a/build/x.o" "build" = true
  <-> posixpath.basename "a/build/x.o" = "build"
      \/ Str.startswith "a/build/x.o" ("build" +:+ "/") = true.
Proof. apply (plain_name_rule "a/build/x.o" "build"); reflexivity. Defined.

(** X19: the star of a pattern stands for any text, separators included:
    a pattern [a*b] with plain [a] and [b] that is not directory-only
    matches every path that starts with [a] and ends with [b]. *)
Theorem star_crosses_separators (a mid b : string) :
  literal a = true -> literal b = true ->
  Str.endswith (a +:+ "*" +:+ b) "/" = false ->
  pattern_matches (a +:+ mid +:+ b) (a +:+ "*" +:+ b) = true.
Proof.
  intros Ha Hb Hend.
  assert (fnmatch.fnmatch (a +:+ mid +:+ b) (a +:+ "*" +:+ b) = true) as Hm.
  { unfold fnmatch.fnmatch, fnmatch.translate.
    rewrite tokens_literal by done. apply glob_literal_prefix.
    exists (mid +:+ b). split; [done|].
    change (fnmatch.tokens None ("*" +:+ b))
      with (fnmatch.Star :: fnmatch.tokens None b).
    apply glob_star. by apply fnmatch_literal. }
  unfold pattern_matches. rewrite Hend, Hm.
  destruct (negb _); [|done]. by rewrite !orb_true_r.
Qed.

Lemma star_crosses_separators_witness :
  pattern_matches ("src/" +:+ "a/b/c" +:+ ".py") ("src/" +:+ "*" +:+ ".py")
  = true.
Proof.
  apply (star_crosses_separators "src/" "a/b/c" ".py"); reflexivity.
Defined.

(** ** A single rule in the root rule file *)

Lemma existsb_all_same {A} (f : A -> bool) (l : list A) (x : A) :
  x ∈ l -> (forall y, y ∈ l -> y = x) -> existsb f l = f x.
Proof.
  intros Hx Hall. destruct (f x) eqn:E.
  - apply existsb_exists. exists x. by rewrite <- list_elem_of_In.
  - apply existsb_false_iff. intros y Hy. by rewrite (Hall y Hy).
Qed.

(** With one plain rule in the root rule file, the verdict on a path below
    the root is the matcher's answer on the relative path. *)
Lemma single_root_rule fs rootc sub name pat :
  Forall good_name rootc -> Forall good_name sub -> good_name name ->
  ".git" ∉ rootc -> ".git" ∉ sub -> name <> ".git" ->
  name ∉ ALWAYS_IGNORE_FILENAMES ->
  is_negation pat = false ->
  isIgnored fs (abs_path (rootc ++ sub ++ [name])) (abs_path rootc)
            ({[abs_path rootc := [pat]]} : index)
  = Ok (pattern_matches (Str.join "/" (sub ++ [name])) pat).
Proof.
  intros Hr Hs Hn Hgr Hgs Hgn Hdeny Hneg. rewrite isIgnored_run.
  rewrite denylisted_below by done.
  change (String.eqb (abs_path (rootc ++ sub ++ [name])) "") with false.
  cbn iota.
  set (rules := walk_rules _ _ _).
  assert ((abs_path rootc, pat) ∈ rules) as Hin.
  { apply (walk_rules_at_root rootc sub name _ [pat]); try done.
    - apply lookup_singleton_eq.
    - apply list_elem_of_here. }
  assert (forall r, r ∈ rules -> r = (abs_path rootc, pat)) as Hall.
  { intros r Hr'. apply walk_rules_singleton in Hr' as (p & -> & Hp).
    by apply list_elem_of_singleton in Hp as ->. }
  rewrite (existsb_all_same _ _ _ Hin Hall),
          (existsb_all_same (hits_plain _ _) _ _ Hin Hall).
  unfold hits_negated, hits_plain. cbn [snd]. rewrite Hneg, andb_false_r.
  cbn [negb andb]. rewrite andb_true_r.
  rewrite (hits_at_root fs rootc (sub ++ [name])).
  - unfold strip_negation. by rewrite Hneg.
  - done.
  - apply Forall_app. split; [done|]. by apply Forall_singleton.
  - by destruct sub.
Qed.

Lemma startswith_name_sep (c p t : string) :
  Str.contains posixpath.sep c = false ->
  Str.contains posixpath.sep p = false ->
  Str.startswith (c +:+ "/" +:+ t) (p +:+ "/") = true <-> c = p.
Proof.
  unfold posixpath.sep.
  revert c. induction p as [|b p IH]; intros c Hc Hp.
  - rewrite (sapp_nil_l "/"). destruct c as [|a c]; [by rewrite sapp_nil_l|].
    rewrite (sapp_cons a c).
    cbn [Str.startswith Str.contains] in *.
    apply orb_false_elim in Hc as [Ha _]. rewrite andb_true_r.
    rewrite Ascii.eqb_sym, Ha. by split.
  - cbn [Str.contains] in Hp. apply orb_false_elim in Hp as [Hb Hp].
    rewrite (sapp_cons b p). destruct c as [|a c].
    + rewrite sapp_nil_l. change ("/" +:+ t) with (String "/" t).
      cbn [Str.startswith]. rewrite Hb. by split.
    + cbn [Str.contains] in Hc. apply orb_false_elim in Hc as [Ha Hc].
      rewrite (sapp_cons a c). cbn [Str.startswith].
      rewrite andb_true_iff, IH by done. split.
      * intros [E ->]. by apply Ascii.eqb_eq in E as ->.
      * intros [= -> ->]. split; [apply Ascii.eqb_refl|done].
Qed.

Lemma startswith_no_sep (c p : string) :
  Str.contains posixpath.sep c = false ->
  Str.startswith c (p +:+ "/") = false.
Proof.
  intros Hc. destruct (Str.startswith c (p +:+ "/")) eqn:E; [|done].
  apply startswith_iff in E as [t ->].
  assert (Str.contains posixpath.sep ((p +:+ "/") +:+ t) = true) as H;
    [|congruence].
  clear Hc. rewrite sapp_assoc. induction p as [|b p IH].
  - rewrite sapp_nil_l. by rewrite sapp_cons.
  - rewrite sapp_cons. cbn [Str.contains]. rewrite IH. apply orb_true_r.
Qed.

(** The first component of a relative path, read off its text. *)
Lemma startswith_join_head (below : list string) (p : string) :
  Forall good_name below -> Str.contains posixpath.sep p = false ->
  (Str.startswith (Str.join "/" below) (p +:+ "/") = true
   <-> exists r, r <> [] /\ below = p :: r)
  /\ (below <> [] ->
      Str.startswith (Str.join "/" below +:+ "/") (p +:+ "/") = true
      <-> head below = Some p).
Proof.
  intros Hg Hp. destruct Hg as [|c r (Hne & Hc & _) Hr].
  { split; [|done]. cbn [Str.join]. split; [|by intros (r & ? & ?)].
    by rewrite (startswith_no_sep "" p). }
  destruct r as [|c' r].
  - cbn [Str.join head]. split.
    + rewrite startswith_no_sep by done. split; [done|].
      by intros (r & Hr' & [= _ <-]).
    + intros _. rewrite <- (sapp_nil_r (c +:+ "/")), sapp_assoc.
      rewrite startswith_name_sep by done. split; congruence.
  - change (Str.join "/" (c :: c' :: r))
      with (c +:+ "/" +:+ Str.join "/" (c' :: r)).
    split.
    + rewrite startswith_name_sep by done. split.
      * intros ->. by exists (c' :: r).
      * by intros (r' & _ & [= -> _]).
    + intros _. rewrite !sapp_assoc.
      rewrite startswith_name_sep by done. cbn [head]. split; congruence.
Qed.

Lemma Ok_bool_iff (b1 b2 : bool) :
  (b1 = true <-> b2 = true) -> @Ok bool b1 = Ok b2.
Proof. intros H. f_equal. destruct b1, b2; intuition congruence. Qed.

(** X20: with the single root rule [p], a plain name, a file below the
    root is ignored exactly when its own name is [p] or the first
    directory of its relative path is [p]: a directory [p] deeper in the
    tree does not hide its files. *)
Theorem plain_name_root_rule fs rootc sub name p :
  Forall good_name rootc -> Forall good_name sub -> good_name name ->
  ".git" ∉ rootc -> ".git" ∉ sub -> name <> ".git" ->
  name ∉ ALWAYS_IGNORE_FILENAMES ->
  literal p = true -> Str.contains "/" p = false -> is_negation p = false ->
  isIgnored fs (abs_path (rootc ++ sub ++ [name])) (abs_path rootc)
            ({[abs_path rootc := [p]]} : index)
  = Ok (bool_decide (name = p) || bool_decide (head sub = Some p)).
Proof.
  intros Hr Hs Hn Hgr Hgs Hgn Hdeny Hlit Hsep Hneg.
  rewrite single_root_rule by done. apply Ok_bool_iff.
  rewrite pattern_matches_plain_name, basename_join by done.
  assert (Forall good_name (sub ++ [name])) as Hbelow.
  { apply Forall_app. split; [done|]. by apply Forall_singleton. }
  rewrite (proj1 (startswith_join_head _ p Hbelow Hsep)).
  rewrite orb_true_iff, !bool_decide_eq_true. split.
  - intros [->|(r & Hne & E)]; [by left|]. right.
    destruct sub as [|c sub]; [by destruct r|]. by injection E as ->.
  - intros [->|Hhead]; [by left|]. right.
    destruct sub as [|c sub]; [done|]. injection Hhead as ->.
    exists (sub ++ [name]). split; [by destruct sub|done].
Qed.

Lemma plain_name_root_rule_witness :
  isIgnored sample_fs "/proj/a/build/x.o" "/proj"
            ({["/proj" := ["build"]]} : index) = Ok false.
Proof.
  apply (plain_name_root_rule sample_fs ["proj"] ["a"; "build"] "x.o" "build");
    first [side | reflexivity].
Defined.

(** X21: with the single root rule [p/], a directory-only pattern, a path
    below the root is ignored exactly when the first component of its
    relative path is [p], wildcards in [p] standing for themselves. *)
Theorem directory_only_root_rule fs rootc sub name p :
  Forall good_name rootc -> Forall good_name sub -> good_name name ->
  ".git" ∉ rootc -> ".git" ∉ sub -> name <> ".git" ->
  name ∉ ALWAYS_IGNORE_FILENAMES ->
  Str.contains "/" p = false -> is_negation p = false ->
  isIgnored fs (abs_path (rootc ++ sub ++ [name])) (abs_path rootc)
            ({[abs_path rootc := [p +:+ "/"]]} : index)
  = Ok (bool_decide (head (sub ++ [name]) = Some p)).
Proof.
  intros Hr Hs Hn Hgr Hgs Hgn Hdeny Hsep Hneg.
  rewrite single_root_rule; try done.
  - apply Ok_bool_iff. rewrite pattern_matches_directory_only.
    + assert (Forall good_name (sub ++ [name])) as Hbelow.
      { apply Forall_app. split; [done|]. by apply Forall_singleton. }
      rewrite (proj2 (startswith_join_head _ p Hbelow Hsep))
        by by destruct sub.
      by rewrite bool_decide_eq_true.
    + by rewrite endswith_app.
  - destruct p; [done|]. by rewrite sapp_cons.
Qed.

Lemma directory_only_root_rule_witness :
  isIgnored sample_fs "/proj/b*ld/x.o" "/proj"
            ({["/proj" := ["b*ld" +:+ "/"]]} : index) = Ok true.
Proof.
  apply (directory_only_root_rule sample_fs ["proj"] ["b*ld"] "x.o" "b*ld");
    first [side | reflexivity].
Defined.
